(** * A menu API: categories and items

    Shallow embedding of the request handlers of [app/routers/categories.py]
    and [app/routers/items.py], of the schemas of [app/schemas.py] and of the
    tables declared in [app/models.py], followed by the properties of the
    entity store and of the request validator.

    Conventions.
    - Python [int] is [Z], [str] is [string], [float] is an IEEE-754 binary64
      value ([spec_float] of the Standard Library), [None] is [None].
    - A handler is a function of the database (and of the clock, where a
      timestamp column is written); it returns what the handler returns or
      raises, together with the database as the request leaves it. *)

From Stdlib Require Import ZArith List String Bool Lia Sorted SpecFloat.
Import ListNotations.
Local Open Scope Z_scope.

(** ** Python values *)

(** [float]: binary64, 53 bits of precision, infinities at exponent 1024. *)
Definition float := spec_float.
Definition prec : Z := 53.
Definition emax : Z := 1024.

(** The members of [spec_float] that are binary64 values. *)
Definition is_binary64 (x : float) : bool := valid_binary prec emax x.

(** Python comparison operators on floats. *)
Definition float_eq (x y : float) : bool := SFeqb x y.
Definition float_ne (x y : float) : bool := negb (SFeqb x y).
Definition float_lt (x y : float) : bool := SFltb x y.
Definition float_le (x y : float) : bool := SFleb x y.
Definition float_gt (x y : float) : bool := SFltb y x.
Definition float_ge (x y : float) : bool := SFleb y x.

Definition float_zero : float := S754_zero false.

(** [datetime]: a point on the clock. *)
Definition datetime := Z.

(** Truth value of an object, as tested by [if x:]. *)
Definition truthy_obj {A : Type} (x : option A) : bool :=
  match x with Some _ => true | None => false end.

Definition truthy_str (x : option string) : bool :=
  match x with
  | Some s => negb (String.eqb s EmptyString)
  | None => false
  end.

Definition truthy_int (x : option Z) : bool :=
  match x with
  | Some n => negb (n =? 0)
  | None => false
  end.

Definition truthy_list {A : Type} (l : list A) : bool :=
  match l with [] => false | _ :: _ => true end.

(** [not x] on an optional boolean: [not None] is [True]. *)
Definition py_not (x : option bool) : bool :=
  match x with
  | Some b => negb b
  | None => true
  end.

Definition len {A : Type} (l : list A) : Z := Z.of_nat (List.length l).

(** Equality of optional values, [None == None] included. *)
Definition opt_eqb {A : Type} (eqb : A -> A -> bool) (x y : option A) : bool :=
  match x with
  | Some a => match y with Some b => eqb a b | None => false end
  | None => negb (truthy_obj y)
  end.

(** ** [round(x, ndigits)] on floats

    CPython rounds a finite float by converting its exact binary value to
    the decimal numeral with [ndigits] fractional digits that is nearest to
    it (ties to the even last digit) and converting that numeral back to
    the nearest float (ties to the even mantissa).  Both conversions are
    exact roundings, so they are modelled on integers. *)

(** The integer nearest to [p / q], for [q > 0]; ties go to the even one. *)
Definition round_half_even (p q : Z) : Z :=
  let n := p / q in
  match 2 * (p mod q) ?= q with
  | Lt => n
  | Gt => n + 1
  | Eq => if Z.even n then n else n + 1
  end.

(** The exponent of the smallest positive float, [2 ^ -1074]: every finite
    float is a whole number of such units. *)
Definition unit_exponent : Z := emin prec emax.

(** The binary64 value nearest to [p / q] with sign [s], for [p >= 0] and
    [q > 0]: what [strtod] makes of a decimal numeral.  With [p / q]
    counted in units, [g] is the position of the last mantissa bit above
    the unit and the mantissa is [p / q] over [2 ^ g] units rounded to an
    integer; when it rounds up to [2 ^ 53] the value is the first one of
    the next binade; values beyond the largest finite float become
    infinite. *)
Definition float_of_ratio (s : bool) (p q : Z) : float :=
  if p <=? 0 then S754_zero s
  else
    let units := p * 2 ^ (- unit_exponent) in
    let g := Z.max (Z.log2 (units / q) - (prec - 1)) 0 in
    let m := round_half_even units (q * 2 ^ g) in
    let '(m', g') := if m =? 2 ^ prec then (2 ^ (prec - 1), g + 1) else (m, g) in
    match m' with
    | Zpos m'' =>
        if g' + unit_exponent <=? emax - prec
        then S754_finite s m'' (g' + unit_exponent)
        else S754_infinity s
    | _ => S754_zero s
    end.

(** The numeral of the integer [k] with the decimal point [ndigits] places
    from its end, that is [k / 10 ^ ndigits], read as a float. *)
Definition float_of_decimal (s : bool) (k : Z) (ndigits : nat) : float :=
  float_of_ratio s k (10 ^ Z.of_nat ndigits).

(** The exact value [m * 2 ^ e] of a finite float times [10 ^ ndigits],
    rounded to an integer. *)
Definition decimal_digits (m : positive) (e : Z) (ndigits : nat) : Z :=
  round_half_even (Zpos m * 2 ^ (e - unit_exponent) * 10 ^ Z.of_nat ndigits)
                  (2 ^ (- unit_exponent)).

(** [round(x, ndigits)] for [ndigits >= 0].  NaN, the infinities and the
    zeros round to themselves. *)
Definition py_round (x : float) (ndigits : nat) : float :=
  match x with
  | S754_finite s m e => float_of_decimal s (decimal_digits m e ndigits) ndigits
  | _ => x
  end.

(** The float that a decimal literal denotes. *)
Definition float_of_literal (k : Z) (ndigits : nat) : float :=
  float_of_decimal (k <? 0) (Z.abs k) ndigits.

(** ** [app/models.py]: the mapped classes

    An instance of a mapped class holds a value or [None] in every
    attribute; the column declarations ([nullable=False], [unique=True],
    [ForeignKey]) are checked by the database when the session commits. *)

Module Category.
Record t := {
  id : Z;
  name : option string;          (* String(80), unique=True, nullable=False *)
  description : option string    (* String(400) *)
}.

Definition set_name (v : option string) (c : t) : t :=
  {| id := id c; name := v; description := description c |}.
Definition set_description (v : option string) (c : t) : t :=
  {| id := id c; name := name c; description := v |}.
End Category.

Module Item.
Record t := {
  id : Z;
  category_id : option Z;        (* ForeignKey("categories.id"), nullable=False *)
  name : option string;          (* String(100), nullable=False *)
  description : option string;   (* String(500) *)
  price : option float;          (* Float, nullable=False *)
  rating : option float;         (* Float, default=0.0 *)
  is_active : option bool;       (* Boolean, default=True *)
  created_at : datetime;         (* default=datetime.utcnow *)
  updated_at : datetime          (* default=datetime.utcnow, onupdate=datetime.utcnow *)
}.

Definition set_category_id (v : option Z) (i : t) : t :=
  {| id := id i; category_id := v; name := name i;
     description := description i; price := price i; rating := rating i;
     is_active := is_active i; created_at := created_at i;
     updated_at := updated_at i |}.
Definition set_name (v : option string) (i : t) : t :=
  {| id := id i; category_id := category_id i; name := v;
     description := description i; price := price i; rating := rating i;
     is_active := is_active i; created_at := created_at i;
     updated_at := updated_at i |}.
Definition set_description (v : option string) (i : t) : t :=
  {| id := id i; category_id := category_id i; name := name i;
     description := v; price := price i; rating := rating i;
     is_active := is_active i; created_at := created_at i;
     updated_at := updated_at i |}.
Definition set_price (v : option float) (i : t) : t :=
  {| id := id i; category_id := category_id i; name := name i;
     description := description i; price := v; rating := rating i;
     is_active := is_active i; created_at := created_at i;
     updated_at := updated_at i |}.
Definition set_rating (v : option float) (i : t) : t :=
  {| id := id i; category_id := category_id i; name := name i;
     description := description i; price := price i; rating := v;
     is_active := is_active i; created_at := created_at i;
     updated_at := updated_at i |}.
Definition set_is_active (v : option bool) (i : t) : t :=
  {| id := id i; category_id := category_id i; name := name i;
     description := description i; price := price i; rating := rating i;
     is_active := v; created_at := created_at i;
     updated_at := updated_at i |}.
Definition set_updated_at (v : datetime) (i : t) : t :=
  {| id := id i; category_id := category_id i; name := name i;
     description := description i; price := price i; rating := rating i;
     is_active := is_active i; created_at := created_at i;
     updated_at := v |}.
End Item.

(** ** [app/schemas.py]: the request payloads *)

(** A field of an update schema: left out of the request, or supplied with
    a value or with [null]. *)
Inductive optional_field (A : Type) : Type :=
| Unset
| Provided (v : option A).
Arguments Unset {A}.
Arguments Provided {A} v.

(** What the attribute reads as: the default [None] when unset. *)
Definition field_value {A : Type} (f : optional_field A) : option A :=
  match f with
  | Unset => None
  | Provided v => v
  end.

Definition str_len (s : string) : Z := Z.of_nat (String.length s).

(** [Field(min_length=lo, max_length=hi)] on a string. *)
Definition length_between (lo hi : Z) (s : string) : bool :=
  (lo <=? str_len s) && (str_len s <=? hi).

(** A constraint on an [Optional[...]] value: [None] passes. *)
Definition optionally {A : Type} (p : A -> bool) (x : option A) : bool :=
  match x with
  | Some a => p a
  | None => true
  end.

Module CategoryCreate.
Record t := {
  name : string;                 (* Field(..., min_length=3, max_length=80) *)
  description : option string    (* Field(None, max_length=400) *)
}.

Definition validate (c : t) : bool :=
  length_between 3 80 (name c) &&
  optionally (length_between 0 400) (description c).
End CategoryCreate.

Module CategoryUpdate.
Record t := {
  name : optional_field string;         (* Field(None, min_length=3, max_length=80) *)
  description : optional_field string   (* Field(None, max_length=400) *)
}.

Definition validate (u : t) : bool :=
  optionally (length_between 3 80) (field_value (name u)) &&
  optionally (length_between 0 400) (field_value (description u)).

(** One entry of [model_dump(exclude_unset=True)]. *)
Inductive entry :=
| name_entry (v : option string)
| description_entry (v : option string).

Definition dump_field {A : Type} (mk : option A -> entry)
    (f : optional_field A) : list entry :=
  match f with
  | Unset => []
  | Provided v => [mk v]
  end.

Definition model_dump_exclude_unset (u : t) : list entry :=
  dump_field name_entry (name u) ++
  dump_field description_entry (description u).

Definition setattr (c : Category.t) (e : entry) : Category.t :=
  match e with
  | name_entry v => Category.set_name v c
  | description_entry v => Category.set_description v c
  end.

(** Setting an attribute of a loaded row marks the row for writing when
    the value differs from the loaded one. *)
Definition modifies (c : Category.t) (e : entry) : bool :=
  match e with
  | name_entry v => negb (opt_eqb String.eqb (Category.name c) v)
  | description_entry v => negb (opt_eqb String.eqb (Category.description c) v)
  end.
End CategoryUpdate.

(** [ItemBase.validate_price]: [Some v] is the value returned, [None] the
    [ValueError]. *)
Definition validate_price (v : float) : option float :=
  if float_ne (py_round v 2) v then None else Some v.

(** [ItemBase.validate_rating]. *)
Definition validate_rating (v : option float) : option (option float) :=
  match v with
  | Some r =>
      if float_lt r float_zero || float_gt r (float_of_literal 5 0)
      then None else Some v
  | None => Some v
  end.

(** [Field(..., gt=0)] on the price followed by its validator. *)
Definition price_accepted (v : float) : bool :=
  float_gt v float_zero && truthy_obj (validate_price v).

(** [Field(0.0, ge=0.0, le=5.0)] on the rating followed by its validator. *)
Definition rating_accepted (v : option float) : bool :=
  optionally (fun r => float_ge r float_zero && float_le r (float_of_literal 5 0)) v
  && truthy_obj (validate_rating v).

Module ItemCreate.
Record t := {
  name : string;                 (* Field(..., min_length=1, max_length=100) *)
  description : option string;   (* Field(None, max_length=500) *)
  price : float;                 (* Field(..., gt=0) and validate_price *)
  rating : option float;         (* Field(0.0, ge=0.0, le=5.0) and validate_rating *)
  is_active : bool;              (* Field(True) *)
  category_id : Z                (* Field(..., gt=0) *)
}.

Definition validate (i : t) : bool :=
  length_between 1 100 (name i) &&
  optionally (length_between 0 500) (description i) &&
  price_accepted (price i) &&
  rating_accepted (rating i) &&
  (0 <? category_id i).
End ItemCreate.

Module ItemUpdate.
Record t := {
  category_id : optional_field Z;       (* Field(None, gt=0) *)
  name : optional_field string;         (* Field(None, min_length=1, max_length=100) *)
  description : optional_field string;  (* Field(None, max_length=500) *)
  price : optional_field float;         (* Field(None, gt=0) *)
  rating : optional_field float;        (* Field(None, ge=0.0, le=5.0) *)
  is_active : optional_field bool       (* None *)
}.

Definition validate (u : t) : bool :=
  optionally (fun n => 0 <? n) (field_value (category_id u)) &&
  optionally (length_between 1 100) (field_value (name u)) &&
  optionally (length_between 0 500) (field_value (description u)) &&
  optionally (fun p => float_gt p float_zero) (field_value (price u)) &&
  optionally (fun r => float_ge r float_zero && float_le r (float_of_literal 5 0))
             (field_value (rating u)).

Inductive entry :=
| category_id_entry (v : option Z)
| name_entry (v : option string)
| description_entry (v : option string)
| price_entry (v : option float)
| rating_entry (v : option float)
| is_active_entry (v : option bool).

Definition dump_field {A : Type} (mk : option A -> entry)
    (f : optional_field A) : list entry :=
  match f with
  | Unset => []
  | Provided v => [mk v]
  end.

Definition model_dump_exclude_unset (u : t) : list entry :=
  dump_field category_id_entry (category_id u) ++
  dump_field name_entry (name u) ++
  dump_field description_entry (description u) ++
  dump_field price_entry (price u) ++
  dump_field rating_entry (rating u) ++
  dump_field is_active_entry (is_active u).

Definition setattr (i : Item.t) (e : entry) : Item.t :=
  match e with
  | category_id_entry v => Item.set_category_id v i
  | name_entry v => Item.set_name v i
  | description_entry v => Item.set_description v i
  | price_entry v => Item.set_price v i
  | rating_entry v => Item.set_rating v i
  | is_active_entry v => Item.set_is_active v i
  end.

Definition modifies (i : Item.t) (e : entry) : bool :=
  match e with
  | category_id_entry v => negb (opt_eqb Z.eqb (Item.category_id i) v)
  | name_entry v => negb (opt_eqb String.eqb (Item.name i) v)
  | description_entry v => negb (opt_eqb String.eqb (Item.description i) v)
  | price_entry v => negb (opt_eqb float_eq (Item.price i) v)
  | rating_entry v => negb (opt_eqb float_eq (Item.rating i) v)
  | is_active_entry v => negb (opt_eqb Bool.eqb (Item.is_active i) v)
  end.
End ItemUpdate.

(** ** [app/schemas.py]: the response models

    A route that declares a [response_model] validates the row its handler
    returns against that model, reading the fields from the attributes of
    the row ([from_attributes]). *)

(** A field without a default read from a nullable column: [None] does not
    fit. *)
Definition required {A : Type} (p : A -> bool) (x : option A) : bool :=
  match x with
  | Some a => p a
  | None => false
  end.

Module CategoryResponse.
(** The fields of [CategoryBase] and [id: int]. *)
Definition validate (c : Category.t) : bool :=
  required (length_between 3 80) (Category.name c) &&
  optionally (length_between 0 400) (Category.description c).
End CategoryResponse.

Module ItemResponse.
(** The fields of [ItemBase] with its validators, [id: int],
    [category_id: int] and the two timestamps. *)
Definition validate (i : Item.t) : bool :=
  required (length_between 1 100) (Item.name i) &&
  optionally (length_between 0 500) (Item.description i) &&
  required price_accepted (Item.price i) &&
  rating_accepted (Item.rating i) &&
  truthy_obj (Item.is_active i) &&
  truthy_obj (Item.category_id i).
End ItemResponse.

(** ** The database behind the session

    The two tables, each a list of rows to which a new row is appended,
    and the identity counters from which the primary keys are drawn. *)

Record Database := {
  categories : list Category.t;
  items : list Item.t;
  next_category_id : Z;
  next_item_id : Z
}.

Definition empty_database : Database :=
  {| categories := []; items := []; next_category_id := 1; next_item_id := 1 |}.

(** ** Exceptions *)

(** The [detail] of an [HTTPException], by the message it formats. *)
Inductive detail :=
| category_name_exists (name : string)  (* Category with name '{name}' already exists *)
| category_not_found (category_id : Z)  (* Category with ID {category_id} not found *)
| item_not_found (item_id : Z)          (* Item with ID {item_id} not found *)
| category_has_items (n : Z).           (* Cannot delete category with {n} items. ... *)

Inductive exception :=
| HTTPException (status_code : Z) (d : detail)
| RequestValidationError      (* the payload does not fit its schema *)
| IntegrityError              (* a constraint of a table rejects the commit *)
| ResponseValidationError     (* the returned row does not fit the response model *)
| CompileError.               (* the dialect cannot render the statement *)

Definition HTTP_400_BAD_REQUEST : Z := 400.
Definition HTTP_404_NOT_FOUND : Z := 404.

Definition result (A : Type) : Type := (exception + A)%type.

Definition raise {A : Type} (e : exception) : result A := inl e.
Definition ok {A : Type} (a : A) : result A := inr a.

(** ** Queries and the unit of work *)

(** [Query.first()]. *)
Definition first {A : Type} (rows : list A) : option A := hd_error rows.

(** A column compared with a value in a [filter]: a NULL column never
    matches. *)
Definition column_eq {A : Type} (eqb : A -> A -> bool) (col : option A) (v : A) : bool :=
  opt_eqb eqb col (Some v).

Definition column_ge (col : option float) (v : float) : bool :=
  match col with Some x => float_ge x v | None => false end.

Definition column_le (col : option float) (v : float) : bool :=
  match col with Some x => float_le x v | None => false end.

(** The SELECT statement of a listing: the rows its WHERE clause keeps and
    its OFFSET and LIMIT clauses.  No handler calls [order_by], so the
    statement has no ORDER BY clause. *)
Record Select (A : Type) : Type := {
  selected : list A;
  offset_clause : Z;
  limit_clause : Z
}.
Arguments selected {A} _.
Arguments offset_clause {A} _.
Arguments limit_clause {A} _.

(** [query.offset(skip).limit(limit)]. *)
Definition offset_limit {A : Type} (skip limit : Z) (query : list A) : Select A :=
  {| selected := query; offset_clause := skip; limit_clause := limit |}.

(** [Query.all()] on a statement with an OFFSET clause and no ORDER BY.
    The engine of [app/database.py] is [mssql+pyodbc], and the compiler of
    that dialect refuses such a statement (MSSQL requires an order_by when
    using an OFFSET or a non-simple LIMIT clause): the call raises
    [CompileError] whatever the bounds and the selected rows, before any
    statement is sent to the database. *)
Definition all {A : Type} (statement : Select A) : result (list A) :=
  raise CompileError.

Definition category_with_id (category_id : Z) (c : Category.t) : bool :=
  Category.id c =? category_id.

Definition item_with_id (item_id : Z) (i : Item.t) : bool :=
  Item.id i =? item_id.

(** The relationship [Category.items]: the items whose foreign key is the
    category. *)
Definition Category_items (db : Database) (c : Category.t) : list Item.t :=
  filter (fun i => column_eq Z.eqb (Item.category_id i) (Category.id c)) (items db).

(** The constraints of [categories] on a row to be written: [name] is not
    NULL and no other row has it. *)
Definition category_constraints (row : Category.t) (db : Database) : bool :=
  match Category.name row with
  | Some n =>
      negb (existsb (fun c => column_eq String.eqb (Category.name c) n &&
                              negb (Category.id c =? Category.id row))
                    (categories db))
  | None => false
  end.

(** The constraints of [items] on a row to be written: [category_id],
    [name] and [price] are not NULL and [category_id] is the key of a
    category. *)
Definition item_constraints (row : Item.t) (db : Database) : bool :=
  match Item.category_id row, Item.name row, Item.price row with
  | Some c, Some _, Some _ => existsb (category_with_id c) (categories db)
  | _, _, _ => false
  end.

(** [models.Category] built from [category.model_dump()]; the identity
    column is assigned by the INSERT. *)
Definition new_Category (category : CategoryCreate.t) (id : Z) : Category.t :=
  {| Category.id := id;
     Category.name := Some (CategoryCreate.name category);
     Category.description := CategoryCreate.description category |}.

(** [models.Item] built from [item.model_dump()]; the INSERT assigns the
    identity column and fills the columns left at [None] that have a
    default. *)
Definition new_Item (item : ItemCreate.t) (id : Z) (now : datetime) : Item.t :=
  {| Item.id := id;
     Item.category_id := Some (ItemCreate.category_id item);
     Item.name := Some (ItemCreate.name item);
     Item.description := ItemCreate.description item;
     Item.price := Some (ItemCreate.price item);
     Item.rating := match ItemCreate.rating item with
                    | Some r => Some r
                    | None => Some float_zero
                    end;
     Item.is_active := Some (ItemCreate.is_active item);
     Item.created_at := now;
     Item.updated_at := now |}.

(** [db.add(row); db.commit(); db.refresh(row)] on [categories]. *)
Definition add_category (row : Category.t) (db : Database) : result Category.t * Database :=
  if category_constraints row db then
    (ok row,
     {| categories := categories db ++ [row];
        items := items db;
        next_category_id := next_category_id db + 1;
        next_item_id := next_item_id db |})
  else (raise IntegrityError, db).

(** [db.add(row); db.commit(); db.refresh(row)] on [items]. *)
Definition add_item (row : Item.t) (db : Database) : result Item.t * Database :=
  if item_constraints row db then
    (ok row,
     {| categories := categories db;
        items := items db ++ [row];
        next_category_id := next_category_id db;
        next_item_id := next_item_id db + 1 |})
  else (raise IntegrityError, db).

Definition replace_category (row : Category.t) (rows : list Category.t) : list Category.t :=
  map (fun r => if category_with_id (Category.id row) r then row else r) rows.

Definition replace_item (row : Item.t) (rows : list Item.t) : list Item.t :=
  map (fun r => if item_with_id (Item.id row) r then row else r) rows.

(** [db.commit(); db.refresh(row)] after attributes of a loaded category
    were set: the row is written when an assignment has marked it
    ([modified]); otherwise no statement is sent and the loaded row is
    read back. *)
Definition commit_category (old new : Category.t) (modified : bool) (db : Database)
  : result Category.t * Database :=
  if modified then
    if category_constraints new db then
      (ok new,
       {| categories := replace_category new (categories db);
          items := items db;
          next_category_id := next_category_id db;
          next_item_id := next_item_id db |})
    else (raise IntegrityError, db)
  else (ok old, db).

(** The same on a loaded item; writing the row sets [updated_at]
    ([onupdate=datetime.utcnow]). *)
Definition commit_item (old new : Item.t) (modified : bool) (now : datetime)
    (db : Database) : result Item.t * Database :=
  if modified then
    if item_constraints new db then
      let row := Item.set_updated_at now new in
      (ok row,
       {| categories := categories db;
          items := replace_item row (items db);
          next_category_id := next_category_id db;
          next_item_id := next_item_id db |})
    else (raise IntegrityError, db)
  else (ok old, db).

(** [db.delete(db_category); db.commit()]: the relationship cascades
    ([cascade="all, delete-orphan"]), so the items of the category go
    with it. *)
Definition delete_category_row (c : Category.t) (db : Database) : Database :=
  {| categories := filter (fun r => negb (category_with_id (Category.id c) r)) (categories db);
     items := filter (fun i => negb (column_eq Z.eqb (Item.category_id i) (Category.id c)))
                     (items db);
     next_category_id := next_category_id db;
     next_item_id := next_item_id db |}.

(** [db.delete(db_item); db.commit()]. *)
Definition delete_item_row (i : Item.t) (db : Database) : Database :=
  {| categories := categories db;
     items := filter (fun r => negb (item_with_id (Item.id i) r)) (items db);
     next_category_id := next_category_id db;
     next_item_id := next_item_id db |}.

(** ** [app/routers/categories.py] *)

Definition create_category (category : CategoryCreate.t) (db : Database)
  : result Category.t * Database :=
  (* Check if category name already exists *)
  let existing :=
    first (filter (fun c => column_eq String.eqb (Category.name c)
                                      (CategoryCreate.name category))
                  (categories db)) in
  if truthy_obj existing then
    (raise (HTTPException HTTP_400_BAD_REQUEST
              (category_name_exists (CategoryCreate.name category))), db)
  else
    (* Create new category *)
    let db_category := new_Category category (next_category_id db) in
    add_category db_category db.

Definition list_categories (skip limit : Z) (db : Database) : result (list Category.t) :=
  all (offset_limit skip limit (categories db)).

Definition get_category (category_id : Z) (db : Database) : result Category.t :=
  match first (filter (category_with_id category_id) (categories db)) with
  | None => raise (HTTPException HTTP_404_NOT_FOUND (category_not_found category_id))
  | Some category => ok category
  end.

Definition update_category (category_id : Z) (category_update : CategoryUpdate.t)
    (db : Database) : result Category.t * Database :=
  match first (filter (category_with_id category_id) (categories db)) with
  | None =>
      (raise (HTTPException HTTP_404_NOT_FOUND (category_not_found category_id)), db)
  | Some db_category =>
      (* Check if new name conflicts with existing category *)
      let name := field_value (CategoryUpdate.name category_update) in
      let existing :=
        match name with
        | Some n =>
            first (filter (fun c => column_eq String.eqb (Category.name c) n &&
                                    negb (Category.id c =? category_id))
                          (categories db))
        | None => None
        end in
      if truthy_str name && truthy_obj existing then
        (raise (HTTPException HTTP_400_BAD_REQUEST
                  (category_name_exists (match name with Some n => n | None => EmptyString end))),
         db)
      else
        (* Update fields *)
        let update_data := CategoryUpdate.model_dump_exclude_unset category_update in
        let updated := fold_left CategoryUpdate.setattr update_data db_category in
        let modified := existsb (CategoryUpdate.modifies db_category) update_data in
        commit_category db_category updated modified db
  end.

Definition delete_category (category_id : Z) (db : Database) : result unit * Database :=
  match first (filter (category_with_id category_id) (categories db)) with
  | None =>
      (raise (HTTPException HTTP_404_NOT_FOUND (category_not_found category_id)), db)
  | Some db_category =>
      (* Check if category has items *)
      if truthy_list (Category_items db db_category) then
        (raise (HTTPException HTTP_400_BAD_REQUEST
                  (category_has_items (len (Category_items db db_category)))), db)
      else
        (ok tt, delete_category_row db_category db)
  end.

(** ** [app/routers/items.py] *)

Definition create_item (item : ItemCreate.t) (now : datetime) (db : Database)
  : result Item.t * Database :=
  (* Verify category exists *)
  let category :=
    first (filter (category_with_id (ItemCreate.category_id item)) (categories db)) in
  if negb (truthy_obj category) then
    (raise (HTTPException HTTP_404_NOT_FOUND
              (category_not_found (ItemCreate.category_id item))), db)
  else
    (* Create new item *)
    let db_item := new_Item item (next_item_id db) now in
    add_item db_item db.

(** The filters of [list_items] that are not [None], applied in turn. *)
Definition apply_filter {A B : Type} (arg : option B) (p : B -> A -> bool)
    (query : list A) : list A :=
  match arg with
  | Some v => filter (p v) query
  | None => query
  end.

(** The [query] of [list_items] once the filters are applied. *)
Definition list_items_query (category_id : option Z)
    (is_active : option bool) (min_price max_price min_rating : option float)
    (db : Database) : list Item.t :=
  let query := items db in
  (* Apply filters *)
  let query := apply_filter category_id
                 (fun v i => column_eq Z.eqb (Item.category_id i) v) query in
  let query := apply_filter is_active
                 (fun v i => column_eq Bool.eqb (Item.is_active i) v) query in
  let query := apply_filter min_price
                 (fun v i => column_ge (Item.price i) v) query in
  let query := apply_filter max_price
                 (fun v i => column_le (Item.price i) v) query in
  let query := apply_filter min_rating
                 (fun v i => column_ge (Item.rating i) v) query in
  query.

(** The statement [query.offset(skip).limit(limit)] of [list_items]. *)
Definition list_items_statement (skip limit : Z) (category_id : option Z)
    (is_active : option bool) (min_price max_price min_rating : option float)
    (db : Database) : Select Item.t :=
  offset_limit skip limit
    (list_items_query category_id is_active min_price max_price min_rating db).


Definition get_item (item_id : Z) (db : Database) : result Item.t :=
  match first (filter (item_with_id item_id) (items db)) with
  | None => raise (HTTPException HTTP_404_NOT_FOUND (item_not_found item_id))
  | Some item => ok item
  end.

Definition update_item (item_id : Z) (item_update : ItemUpdate.t) (now : datetime)
    (db : Database) : result Item.t * Database :=
  match first (filter (item_with_id item_id) (items db)) with
  | None =>
      (raise (HTTPException HTTP_404_NOT_FOUND (item_not_found item_id)), db)
  | Some db_item =>
      (* If updating category, verify it exists *)
      let category_id := field_value (ItemUpdate.category_id item_update) in
      let category :=
        match category_id with
        | Some c => first (filter (category_with_id c) (categories db))
        | None => None
        end in
      if truthy_int category_id && negb (truthy_obj category) then
        (raise (HTTPException HTTP_404_NOT_FOUND
                  (category_not_found (match category_id with Some c => c | None => 0 end))),
         db)
      else
        (* Update fields *)
        let update_data := ItemUpdate.model_dump_exclude_unset item_update in
        let updated := fold_left ItemUpdate.setattr update_data db_item in
        let modified := existsb (ItemUpdate.modifies db_item) update_data in
        commit_item db_item updated modified now db
  end.

Definition delete_item (item_id : Z) (db : Database) : result unit * Database :=
  match first (filter (item_with_id item_id) (items db)) with
  | None =>
      (raise (HTTPException HTTP_404_NOT_FOUND (item_not_found item_id)), db)
  | Some db_item => (ok tt, delete_item_row db_item db)
  end.

Definition toggle_item_active (item_id : Z) (now : datetime) (db : Database)
  : result Item.t * Database :=
  match first (filter (item_with_id item_id) (items db)) with
  | None =>
      (raise (HTTPException HTTP_404_NOT_FOUND (item_not_found item_id)), db)
  | Some db_item =>
      let is_active := Some (py_not (Item.is_active db_item)) in
      let toggled := Item.set_is_active is_active db_item in
      let modified := ItemUpdate.modifies db_item (ItemUpdate.is_active_entry is_active) in
      commit_item db_item toggled modified now db
  end.

(** ** The request boundary

    A request carries a payload that is checked against its schema before
    the handler is called; a payload that does not fit is answered with the
    validation error and the handler does not run.  What the handler
    returns is checked against the response model of the route, after the
    handler has run and committed: a row that does not fit is answered with
    [ResponseValidationError] and the database stays as the handler left
    it.  The two DELETE routes declare no response model. *)

Inductive request :=
| POST_categories (category : CategoryCreate.t)
| PUT_categories (category_id : Z) (category_update : CategoryUpdate.t)
| DELETE_categories (category_id : Z)
| POST_items (item : ItemCreate.t)
| PUT_items (item_id : Z) (item_update : ItemUpdate.t)
| DELETE_items (item_id : Z)
| PATCH_items_toggle_active (item_id : Z).

Inductive response :=
| category_response (c : Category.t)
| item_response (i : Item.t)
| no_content.

(** The answer of a route: the exception the handler raised, or what it
    returned once it fits the [response_model]. *)
Definition respond {A : Type} (response_model : A -> bool) (f : A -> response)
    (r : result A * Database) : result response * Database :=
  match fst r with
  | inl e => (inl e, snd r)
  | inr a =>
      if response_model a then (inr (f a), snd r)
      else (raise ResponseValidationError, snd r)
  end.

Definition handle (r : request) (now : datetime) (db : Database)
  : result response * Database :=
  match r with
  | POST_categories category =>
      if CategoryCreate.validate category
      then respond CategoryResponse.validate category_response
             (create_category category db)
      else (raise RequestValidationError, db)
  | PUT_categories category_id category_update =>
      if CategoryUpdate.validate category_update
      then respond CategoryResponse.validate category_response
             (update_category category_id category_update db)
      else (raise RequestValidationError, db)
  | DELETE_categories category_id =>
      respond (fun _ => true) (fun _ => no_content) (delete_category category_id db)
  | POST_items item =>
      if ItemCreate.validate item
      then respond ItemResponse.validate item_response (create_item item now db)
      else (raise RequestValidationError, db)
  | PUT_items item_id item_update =>
      if ItemUpdate.validate item_update
      then respond ItemResponse.validate item_response
             (update_item item_id item_update now db)
      else (raise RequestValidationError, db)
  | DELETE_items item_id =>
      respond (fun _ => true) (fun _ => no_content) (delete_item item_id db)
  | PATCH_items_toggle_active item_id =>
      respond ItemResponse.validate item_response (toggle_item_active item_id now db)
  end.

(** The databases the API can be in: the empty one and those a request
    leaves behind. *)
Inductive reachable : Database -> Prop :=
| reachable_empty : reachable empty_database
| reachable_step (db : Database) (r : request) (now : datetime) :
    reachable db -> reachable (snd (handle r now db)).

(** * Properties *)

(** ** Queries *)

Lemma first_filter_none {A : Type} (p : A -> bool) (l : list A) :
  first (filter p l) = None <-> existsb p l = false.
Proof.
  induction l as [|a l IH]; simpl.
  - tauto.
  - destruct (p a); simpl; [split; discriminate | exact IH].
Qed.

Lemma first_filter_some {A : Type} (p : A -> bool) (l : list A) (a : A) :
  first (filter p l) = Some a -> In a l /\ p a = true.
Proof.
  induction l as [|b l IH]; simpl; [discriminate|].
  destruct (p b) eqn:E; simpl.
  - intros [= ->]. auto.
  - intros H. destruct (IH H). auto.
Qed.

Lemma first_filter_exists {A : Type} (p : A -> bool) (l : list A) :
  existsb p l = true -> exists a, first (filter p l) = Some a.
Proof.
  intros H. destruct (first (filter p l)) eqn:E; [eauto|].
  apply first_filter_none in E. congruence.
Qed.

Lemma filter_none_negb {A : Type} (p : A -> bool) (l : list A) :
  filter p l = [] -> filter (fun a => negb (p a)) l = l.
Proof.
  induction l as [|a l IH]; simpl; [reflexivity|].
  destruct (p a); simpl; [discriminate|].
  intros H. now rewrite IH.
Qed.

(** ** Deleting a category *)

(** The number of items whose [category_id] is the given key. *)
Definition dependents (category_id : Z) (db : Database) : Z :=
  Z.of_nat (List.length
    (filter (fun i => match Item.category_id i with
                      | Some k => k =? category_id
                      | None => false
                      end) (items db))).

(** The database with the categories of the given key taken out and
    nothing else touched. *)
Definition without_category (category_id : Z) (db : Database) : Database :=
  {| categories := filter (fun c => negb (Category.id c =? category_id)) (categories db);
     items := items db;
     next_category_id := next_category_id db;
     next_item_id := next_item_id db |}.

Definition category_exists (category_id : Z) (db : Database) : bool :=
  existsb (fun c => Category.id c =? category_id) (categories db).

Lemma Category_items_dependents (db : Database) (c : Category.t) :
  len (Category_items db c) = dependents (Category.id c) db.
Proof. reflexivity. Qed.

Lemma delete_category_eval (category_id : Z) (db : Database) :
  delete_category category_id db =
    if negb (category_exists category_id db) then
      (raise (HTTPException 404 (category_not_found category_id)), db)
    else if 0 <? dependents category_id db then
      (raise (HTTPException 400 (category_has_items (dependents category_id db))), db)
    else (ok tt, without_category category_id db).
Proof.
  unfold delete_category, category_exists.
  destruct (first (filter (category_with_id category_id) (categories db))) as [c|] eqn:E.
  - destruct (first_filter_some _ _ _ E) as [Hin Hid].
    assert (Hex : existsb (fun c => Category.id c =? category_id) (categories db) = true).
    { apply existsb_exists. exists c. auto. }
    rewrite Hex. simpl negb. cbv iota.
    unfold category_with_id in Hid. apply Z.eqb_eq in Hid.
    rewrite Category_items_dependents, Hid.
    unfold dependents.
    assert (HI : Category_items db c =
                 filter (fun i => match Item.category_id i with
                                  | Some k => k =? category_id
                                  | None => false
                                  end) (items db)).
    { unfold Category_items. rewrite Hid. apply filter_ext_in.
      intros i _. unfold column_eq, opt_eqb. destruct (Item.category_id i); reflexivity. }
    rewrite HI.
    destruct (filter _ (items db)) as [|i l] eqn:F.
    + simpl. unfold without_category, delete_category_row, category_with_id. f_equal.
      rewrite Hid. f_equal.
      rewrite <- (filter_none_negb _ _ F) at 2.
      apply filter_ext_in. intros i _. unfold column_eq, opt_eqb.
      destruct (Item.category_id i); reflexivity.
    + assert (Hpos : (0 <? Z.of_nat (Datatypes.length (i :: l))) = true)
        by (apply Z.ltb_lt; simpl; lia).
      rewrite Hpos. reflexivity.
  - apply first_filter_none in E. unfold category_with_id in E.
    rewrite E. reflexivity.
Qed.

(** C1.  [delete_category] succeeds exactly when a category has the key and
    no item refers to it, and then only the category is taken out; with
    [n >= 1] items referring to it the handler raises the 400 error that
    carries [n] and leaves the database as it was, items included; with no
    category of that key it raises the 404 error. *)
Theorem delete_category_spec (category_id : Z) (db : Database) :
  ((exists db', delete_category category_id db = (ok tt, db')) <->
   category_exists category_id db = true /\ dependents category_id db = 0) /\
  (category_exists category_id db = true -> dependents category_id db = 0 ->
   delete_category category_id db = (ok tt, without_category category_id db)) /\
  (category_exists category_id db = true -> 0 < dependents category_id db ->
   delete_category category_id db =
     (raise (HTTPException HTTP_400_BAD_REQUEST
               (category_has_items (dependents category_id db))), db)) /\
  (category_exists category_id db = false ->
   delete_category category_id db =
     (raise (HTTPException HTTP_404_NOT_FOUND (category_not_found category_id)), db)).
Proof.
  rewrite delete_category_eval.
  assert (Hn : 0 <= dependents category_id db) by (unfold dependents; lia).
  destruct (category_exists category_id db); simpl negb; cbv iota.
  - destruct (0 <? dependents category_id db) eqn:D;
      [apply Z.ltb_lt in D | apply Z.ltb_ge in D].
    + split; [split|].
      * intros [db' E]. discriminate E.
      * intros [_ E]. lia.
      * repeat split; intros; try discriminate; try lia; reflexivity.
    + split; [split|].
      * intros _. split; [reflexivity|lia].
      * intros _. eexists. reflexivity.
      * repeat split; intros; try discriminate; try lia; reflexivity.
  - split; [split|].
    + intros [db' E]. discriminate E.
    + intros [E _]. discriminate E.
    + repeat split; intros; try discriminate; reflexivity.
Qed.

(** ** Consistent databases

    What the constraints of the tables and the identity counters
    guarantee of every database the API can be in. *)

Definition increasing (l : list Z) : Prop := StronglySorted Z.lt l.

Definition category_ids (db : Database) : list Z := map Category.id (categories db).
Definition category_names (db : Database) : list (option string) :=
  map Category.name (categories db).
Definition item_ids (db : Database) : list Z := map Item.id (items db).

Record consistent (db : Database) : Prop := {
  (* primary keys grow along the table and stay below the identity counter *)
  categories_by_id : increasing (category_ids db);
  categories_below_next : Forall (fun k => k < next_category_id db) (category_ids db);
  (* nullable=False and unique=True on Category.name *)
  names_not_null : Forall (fun n => n <> None) (category_names db);
  names_unique : NoDup (category_names db);
  items_by_id : increasing (item_ids db);
  items_below_next : Forall (fun k => k < next_item_id db) (item_ids db);
  (* nullable=False on the item columns and the foreign key *)
  items_constrained : Forall (fun i => item_constraints i db = true) (items db)
}.

Lemma increasing_snoc (l : list Z) (x : Z) :
  increasing l -> Forall (fun k => k < x) l -> increasing (l ++ [x]).
Proof.
  unfold increasing. induction 1 as [|a l Hs IH Ha]; simpl; intros HF.
  - repeat constructor.
  - inversion HF; subst. constructor; [auto|].
    apply Forall_app. split; [assumption | repeat constructor; assumption].
Qed.

Lemma increasing_map_filter {A : Type} (f : A -> Z) (p : A -> bool) (l : list A) :
  increasing (map f l) -> increasing (map f (filter p l)).
Proof.
  unfold increasing. induction l as [|a l IH]; simpl; intros H; [assumption|].
  apply StronglySorted_inv in H. destruct H as [H1 H2].
  destruct (p a); simpl; [|auto].
  constructor; [auto|].
  rewrite Forall_forall in *. intros x Hx.
  apply in_map_iff in Hx. destruct Hx as [b [<- Hb]].
  apply filter_In in Hb. apply H2. apply in_map. tauto.
Qed.

Lemma increasing_NoDup (l : list Z) : increasing l -> NoDup l.
Proof.
  unfold increasing. induction 1 as [|a l Hs IH Ha]; constructor; [|assumption].
  intros Hin. rewrite Forall_forall in Ha. specialize (Ha a Hin). lia.
Qed.

(** Taking rows out of [categories] keeps the names distinct. *)
Lemma names_unique_filter (keep : Category.t -> bool) (rows : list Category.t) :
  NoDup (map Category.name rows) ->
  NoDup (map Category.name (filter keep rows)).
Proof.
  induction rows as [|r rows IH]; simpl; [trivial|].
  intros Hu. inversion Hu as [|? ? Hfresh Hrest]; subst.
  destruct (keep r); simpl; [|exact (IH Hrest)].
  constructor; [|exact (IH Hrest)].
  intros Hin. apply Hfresh.
  apply in_map_iff in Hin. destruct Hin as [c [Ec Hc]].
  apply filter_In in Hc. rewrite <- Ec. apply in_map. exact (proj1 Hc).
Qed.

Lemma Forall_map_filter {A B : Type} (P : B -> Prop) (f : A -> B) (p : A -> bool)
    (l : list A) :
  Forall P (map f l) -> Forall P (map f (filter p l)).
Proof.
  rewrite !Forall_forall. intros H x Hx.
  apply in_map_iff in Hx. destruct Hx as [b [<- Hb]].
  apply filter_In in Hb. apply H. apply in_map. tauto.
Qed.

Lemma existsb_category_ids (k : Z) (l : list Category.t) :
  existsb (category_with_id k) l = existsb (fun x => x =? k) (map Category.id l).
Proof. induction l as [|a l IH]; simpl; [reflexivity | now rewrite IH]. Qed.

Lemma item_constraints_same_ids (i : Item.t) (db db' : Database) :
  category_ids db = category_ids db' ->
  item_constraints i db = item_constraints i db'.
Proof.
  unfold item_constraints, category_ids. intros H.
  destruct (Item.category_id i), (Item.name i), (Item.price i); try reflexivity.
  now rewrite !existsb_category_ids, H.
Qed.

Lemma item_constraints_more_categories (i : Item.t) (db db' : Database) :
  (forall k, In k (category_ids db) -> In k (category_ids db')) ->
  item_constraints i db = true -> item_constraints i db' = true.
Proof.
  unfold item_constraints, category_ids. intros H.
  destruct (Item.category_id i), (Item.name i), (Item.price i); try discriminate.
  rewrite !existsb_category_ids, !existsb_exists.
  intros [x [Hx E]]. exists x. auto.
Qed.

(** *** Rows replaced by key *)

Lemma replace_category_ids (row : Category.t) (rows : list Category.t) :
  map Category.id (replace_category row rows) = map Category.id rows.
Proof.
  unfold replace_category, category_with_id.
  induction rows as [|r rows IH]; simpl; [reflexivity|].
  rewrite IH. destruct (Category.id r =? Category.id row) eqn:E; [|reflexivity].
  apply Z.eqb_eq in E. now rewrite E.
Qed.

Lemma replace_item_ids (row : Item.t) (rows : list Item.t) :
  map Item.id (replace_item row rows) = map Item.id rows.
Proof.
  unfold replace_item, item_with_id.
  induction rows as [|r rows IH]; simpl; [reflexivity|].
  rewrite IH. destruct (Item.id r =? Item.id row) eqn:E; [|reflexivity].
  apply Z.eqb_eq in E. now rewrite E.
Qed.

Lemma in_replace_category (row c : Category.t) (rows : list Category.t) :
  In c (replace_category row rows) ->
  c = row \/ (In c rows /\ Category.id c <> Category.id row).
Proof.
  unfold replace_category, category_with_id. intros H.
  apply in_map_iff in H. destruct H as [r [E Hr]].
  destruct (Category.id r =? Category.id row) eqn:D.
  - left. auto.
  - right. subst c. apply Z.eqb_neq in D. auto.
Qed.

Lemma in_replace_item (row i : Item.t) (rows : list Item.t) :
  In i (replace_item row rows) ->
  i = row \/ (In i rows /\ Item.id i <> Item.id row).
Proof.
  unfold replace_item, item_with_id. intros H.
  apply in_map_iff in H. destruct H as [r [E Hr]].
  destruct (Item.id r =? Item.id row) eqn:D.
  - left. auto.
  - right. subst i. apply Z.eqb_neq in D. auto.
Qed.

Lemma replace_category_absent (row : Category.t) (rows : list Category.t) :
  ~ In (Category.id row) (map Category.id rows) -> replace_category row rows = rows.
Proof.
  unfold replace_category, category_with_id.
  induction rows as [|r rows IH]; simpl; intros H; [reflexivity|].
  destruct (Category.id r =? Category.id row) eqn:E.
  - apply Z.eqb_eq in E. tauto.
  - rewrite IH by tauto. reflexivity.
Qed.

Lemma replace_category_names (row : Category.t) (rows : list Category.t) :
  NoDup (map Category.id rows) ->
  NoDup (map Category.name rows) ->
  (forall c, In c rows -> Category.name c = Category.name row ->
             Category.id c = Category.id row) ->
  NoDup (map Category.name (replace_category row rows)).
Proof.
  induction rows as [|r rows IH]; simpl; intros Hid Hn Hrow; [constructor|].
  inversion Hid as [|? ? Hid1 Hid2]; subst. inversion Hn as [|? ? Hn1 Hn2]; subst.
  unfold category_with_id at 1.
  destruct (Category.id r =? Category.id row) eqn:E.
  - apply Z.eqb_eq in E. rewrite replace_category_absent by (rewrite <- E; assumption).
    constructor; [|assumption].
    intros Hin. apply in_map_iff in Hin. destruct Hin as [c [Ec Hc]].
    apply Hid1. rewrite E, <- (Hrow c); auto using in_map.
  - apply Z.eqb_neq in E. constructor; [|apply IH; auto].
    intros Hin. apply in_map_iff in Hin. destruct Hin as [c [Ec Hc]].
    apply in_replace_category in Hc. destruct Hc as [-> | [Hc _]].
    + apply E. apply Hrow; auto.
    + apply Hn1. rewrite <- Ec. now apply in_map.
Qed.

(** *** Every request keeps the database consistent *)

Lemma NoDup_snoc {A : Type} (l : list A) (x : A) :
  NoDup l -> ~ In x l -> NoDup (l ++ [x]).
Proof.
  induction 1 as [|a l Ha Hl IH]; simpl; intros Hx.
  - repeat constructor. auto.
  - constructor; [|apply IH; tauto].
    rewrite in_app_iff. simpl. intros [H | [H | []]]; [tauto | subst; tauto].
Qed.

Lemma filter_nil_forall {A : Type} (p : A -> bool) (l : list A) :
  filter p l = [] -> forall a, In a l -> p a = false.
Proof.
  induction l as [|b l IH]; simpl; intros H a Ha; [contradiction|].
  destruct (p b) eqn:E; [discriminate|].
  destruct Ha as [<- | Ha]; auto.
Qed.

Lemma column_eq_string (x : option string) (n : string) :
  column_eq String.eqb x n = true <-> x = Some n.
Proof.
  unfold column_eq, opt_eqb. destruct x as [s|]; [|split; discriminate].
  rewrite String.eqb_eq. split; congruence.
Qed.

Lemma column_eq_Z (x : option Z) (n : Z) :
  column_eq Z.eqb x n = true <-> x = Some n.
Proof.
  unfold column_eq, opt_eqb. destruct x as [s|]; [|split; discriminate].
  rewrite Z.eqb_eq. split; congruence.
Qed.

Lemma category_constraints_spec (row : Category.t) (db : Database) :
  category_constraints row db = true <->
  exists n, Category.name row = Some n /\
            forall c, In c (categories db) -> Category.name c = Some n ->
                      Category.id c = Category.id row.
Proof.
  unfold category_constraints. destruct (Category.name row) as [n|].
  - rewrite negb_true_iff. split.
    + intros H. exists n. split; [reflexivity|]. intros c Hc Hn.
      destruct (Z.eq_dec (Category.id c) (Category.id row)) as [|D]; [assumption|].
      exfalso. apply not_true_iff_false in H. apply H.
      apply existsb_exists. exists c. split; [assumption|].
      apply andb_true_iff. split; [now apply column_eq_string|].
      apply negb_true_iff. now apply Z.eqb_neq.
    + intros [n' [[= <-] H]]. apply not_true_iff_false. intros E.
      apply existsb_exists in E. destruct E as [c [Hc E]].
      apply andb_true_iff in E. destruct E as [E1 E2].
      apply column_eq_string in E1. apply negb_true_iff, Z.eqb_neq in E2.
      apply E2. auto.
  - split; [discriminate|]. intros [n [E _]]. discriminate.
Qed.

Lemma add_category_consistent (row : Category.t) (db : Database) :
  Category.id row = next_category_id db ->
  consistent db -> consistent (snd (add_category row db)).
Proof.
  intros Hid [H1 H2 H3 H4 H5 H6 H7]. unfold add_category.
  destruct (category_constraints row db) eqn:C; simpl; [|constructor; assumption].
  apply category_constraints_spec in C. destruct C as [n [Hn Hrow]].
  constructor; unfold category_ids, category_names, item_ids in *; simpl;
    try assumption.
  - rewrite map_app. simpl. apply increasing_snoc; [assumption|]. now rewrite Hid.
  - rewrite map_app. apply Forall_app. split.
    + eapply Forall_impl; [|exact H2]. simpl. intros; lia.
    + repeat constructor. lia.
  - rewrite map_app. apply Forall_app. split; [assumption|].
    repeat constructor. rewrite Hn. discriminate.
  - rewrite map_app. simpl. apply NoDup_snoc; [assumption|].
    intros Hin. apply in_map_iff in Hin. destruct Hin as [c [Ec Hc]].
    rewrite Hn in Ec. specialize (Hrow c Hc Ec).
    rewrite Forall_forall in H2. specialize (H2 (Category.id c) (in_map _ _ _ Hc)).
    lia.
  - eapply Forall_impl; [|exact H7]. intros i Hi.
    eapply item_constraints_more_categories; [|exact Hi].
    unfold category_ids. simpl. intros k Hk. rewrite map_app, in_app_iff. auto.
Qed.

Lemma commit_category_consistent (old new : Category.t) (m : bool) (db : Database) :
  consistent db -> consistent (snd (commit_category old new m db)).
Proof.
  intros [H1 H2 H3 H4 H5 H6 H7]. unfold commit_category.
  destruct m; [|constructor; assumption].
  destruct (category_constraints new db) eqn:C; simpl; [|constructor; assumption].
  apply category_constraints_spec in C. destruct C as [n [Hn Hrow]].
  constructor; unfold category_ids, category_names, item_ids in *; simpl;
    try assumption; rewrite ?replace_category_ids; try assumption.
  - rewrite Forall_forall in *. intros x Hx.
    apply in_map_iff in Hx. destruct Hx as [c [<- Hc]].
    apply in_replace_category in Hc. destruct Hc as [-> | [Hc _]].
    + rewrite Hn. discriminate.
    + apply H3. now apply in_map.
  - apply replace_category_names; [now apply increasing_NoDup | assumption |].
    intros c Hc Ec. apply Hrow; [assumption | congruence].
  - eapply Forall_impl; [|exact H7]. intros i Hi.
    rewrite <- Hi. apply item_constraints_same_ids.
    unfold category_ids. simpl. apply replace_category_ids.
Qed.

Lemma without_category_consistent (category_id : Z) (db : Database) :
  dependents category_id db = 0 ->
  consistent db -> consistent (without_category category_id db).
Proof.
  intros Hdep [H1 H2 H3 H4 H5 H6 H7].
  constructor; unfold category_ids, category_names, item_ids in *; simpl;
    try assumption.
  - now apply increasing_map_filter.
  - now apply Forall_map_filter.
  - now apply Forall_map_filter.
  - now apply names_unique_filter.
  - unfold dependents in Hdep.
    assert (Hnil : filter (fun i => match Item.category_id i with
                                     | Some k => k =? category_id
                                     | None => false
                                     end) (items db) = []).
    { destruct (filter _ (items db)); [reflexivity | simpl in Hdep; lia]. }
    pose proof (filter_nil_forall _ _ Hnil) as Hno.
    rewrite Forall_forall in *. intros i Hi.
    specialize (H7 i Hi). specialize (Hno i Hi).
    unfold item_constraints in *. simpl.
    destruct (Item.category_id i) as [k|], (Item.name i), (Item.price i);
      try discriminate.
    apply existsb_exists in H7. destruct H7 as [c [Hc Ec]].
    apply existsb_exists. exists c. split; [|assumption].
    apply filter_In. split; [assumption|].
    unfold category_with_id in Ec. apply Z.eqb_eq in Ec. now rewrite Ec, Hno.
Qed.

Lemma add_item_consistent (row : Item.t) (db : Database) :
  Item.id row = next_item_id db ->
  consistent db -> consistent (snd (add_item row db)).
Proof.
  intros Hid [H1 H2 H3 H4 H5 H6 H7]. unfold add_item.
  destruct (item_constraints row db) eqn:C; simpl; [|constructor; assumption].
  constructor; unfold category_ids, category_names, item_ids in *; simpl;
    try assumption.
  - rewrite map_app. simpl. apply increasing_snoc; [assumption|]. now rewrite Hid.
  - rewrite map_app. apply Forall_app. split.
    + eapply Forall_impl; [|exact H6]. simpl. intros; lia.
    + repeat constructor. lia.
  - apply Forall_app. split; [exact H7 | repeat constructor; exact C].
Qed.

Lemma item_constraints_updated_at (now : datetime) (i : Item.t) (db : Database) :
  item_constraints (Item.set_updated_at now i) db = item_constraints i db.
Proof. reflexivity. Qed.

Lemma commit_item_consistent (old new : Item.t) (m : bool) (now : datetime)
    (db : Database) :
  consistent db -> consistent (snd (commit_item old new m now db)).
Proof.
  intros [H1 H2 H3 H4 H5 H6 H7]. unfold commit_item.
  destruct m; [|constructor; assumption].
  destruct (item_constraints new db) eqn:C; simpl; [|constructor; assumption].
  constructor; unfold category_ids, category_names, item_ids in *; simpl;
    try assumption; rewrite ?replace_item_ids; try assumption.
  rewrite Forall_forall in *. intros i Hi.
  apply in_replace_item in Hi. destruct Hi as [-> | [Hi _]].
  - exact C.
  - exact (H7 i Hi).
Qed.

Lemma delete_item_row_consistent (i : Item.t) (db : Database) :
  consistent db -> consistent (delete_item_row i db).
Proof.
  intros [H1 H2 H3 H4 H5 H6 H7].
  constructor; unfold category_ids, category_names, item_ids in *; simpl;
    try assumption.
  - now apply increasing_map_filter.
  - now apply Forall_map_filter.
  - rewrite Forall_forall in *. intros j Hj. apply filter_In in Hj.
    exact (H7 j (proj1 Hj)).
Qed.

Lemma empty_database_consistent : consistent empty_database.
Proof. constructor; simpl; constructor. Qed.

Lemma snd_respond {A : Type} (response_model : A -> bool) (f : A -> response)
    (r : result A * Database) :
  snd (respond response_model f r) = snd r.
Proof.
  unfold respond. destruct (fst r) as [e|a]; [|destruct (response_model a)]; reflexivity.
Qed.

Lemma handle_consistent (r : request) (now : datetime) (db : Database) :
  consistent db -> consistent (snd (handle r now db)).
Proof.
  intros H. destruct r; simpl.
  - destruct (CategoryCreate.validate category); [|exact H].
    rewrite snd_respond. unfold create_category.
    destruct (truthy_obj _); [exact H|].
    now apply add_category_consistent.
  - destruct (CategoryUpdate.validate category_update); [|exact H].
    rewrite snd_respond. unfold update_category.
    destruct (first _); [|exact H].
    destruct (_ && _); [exact H|].
    now apply commit_category_consistent.
  - rewrite snd_respond, delete_category_eval.
    destruct (negb _); [exact H|].
    destruct (0 <? dependents category_id db) eqn:D; [exact H|].
    apply without_category_consistent; [|exact H].
    apply Z.ltb_ge in D. unfold dependents in *. lia.
  - destruct (ItemCreate.validate item); [|exact H].
    rewrite snd_respond. unfold create_item.
    destruct (negb _); [exact H|].
    now apply add_item_consistent.
  - destruct (ItemUpdate.validate item_update); [|exact H].
    rewrite snd_respond. unfold update_item.
    destruct (first _); [|exact H].
    destruct (_ && _); [exact H|].
    now apply commit_item_consistent.
  - rewrite snd_respond. unfold delete_item.
    destruct (first _); [|exact H].
    now apply delete_item_row_consistent.
  - rewrite snd_respond. unfold toggle_item_active.
    destruct (first _); [|exact H].
    now apply commit_item_consistent.
Qed.

Lemma reachable_consistent (db : Database) : reachable db -> consistent db.
Proof.
  induction 1 as [|db r now _ IH].
  - exact empty_database_consistent.
  - now apply handle_consistent.
Qed.

(** ** Creating a category *)

(** Some category carries the name. *)
Definition name_taken (n : string) (db : Database) : Prop :=
  exists c, In c (categories db) /\ Category.name c = Some n.

Lemma name_taken_first (n : string) (db : Database) :
  name_taken n db <->
  truthy_obj (first (filter (fun c => column_eq String.eqb (Category.name c) n)
                            (categories db))) = true.
Proof.
  unfold name_taken. split.
  - intros [c [Hc Hn]].
    destruct (first_filter_exists
                (fun c => column_eq String.eqb (Category.name c) n) (categories db))
      as [a Ha].
    + apply existsb_exists. exists c. split; [assumption|]. now apply column_eq_string.
    + now rewrite Ha.
  - destruct (first _) as [c|] eqn:E; [|discriminate]. intros _.
    apply first_filter_some in E. destruct E as [Hc Hn].
    exists c. split; [assumption|]. now apply column_eq_string.
Qed.

(** C3.  A creation request whose name is the name of a stored category is
    answered with the 400 "already exists" error whatever its description,
    and the database stays as it was.  A request whose name no stored
    category carries succeeds: the new category has the requested name and
    description and the key drawn from the identity counter, it is appended
    to the table, nothing else changes, and in a reachable database that
    key belongs to no other category. *)
Theorem create_category_spec (category : CategoryCreate.t) (db : Database) :
  let row := {| Category.id := next_category_id db;
                Category.name := Some (CategoryCreate.name category);
                Category.description := CategoryCreate.description category |} in
  (name_taken (CategoryCreate.name category) db ->
   create_category category db =
     (raise (HTTPException HTTP_400_BAD_REQUEST
               (category_name_exists (CategoryCreate.name category))), db)) /\
  (~ name_taken (CategoryCreate.name category) db ->
   create_category category db =
     (ok row,
      {| categories := categories db ++ [row];
         items := items db;
         next_category_id := next_category_id db + 1;
         next_item_id := next_item_id db |})) /\
  (reachable db -> ~ In (Category.id row) (category_ids db)).
Proof.
  intros row. split; [|split].
  - intros H. apply name_taken_first in H. unfold create_category. now rewrite H.
  - intros H. unfold create_category.
    destruct (truthy_obj _) eqn:E; [apply name_taken_first in E; contradiction|].
    unfold add_category.
    assert (C : category_constraints (new_Category category (next_category_id db)) db = true).
    { apply category_constraints_spec. exists (CategoryCreate.name category).
      split; [reflexivity|]. intros c Hc Hn. exfalso. apply H. exists c. auto. }
    rewrite C. reflexivity.
  - intros Hr Hin. apply reachable_consistent in Hr.
    pose proof (categories_below_next db Hr) as Hb.
    rewrite Forall_forall in Hb. specialize (Hb _ Hin). simpl in Hb. lia.
Qed.

(** ** Category names stay unique *)

Lemma NoDup_map_injective {A B : Type} (f : A -> B) (l : list A) (a b : A) :
  NoDup (map f l) -> In a l -> In b l -> f a = f b -> a = b.
Proof.
  induction l as [|x l IH]; simpl; intros Hn Ha Hb E; [contradiction|].
  inversion Hn as [|? ? Hx Hl]; subst.
  destruct Ha as [-> | Ha], Hb as [-> | Hb]; auto.
  - exfalso. apply Hx. rewrite E. now apply in_map.
  - exfalso. apply Hx. rewrite <- E. now apply in_map.
Qed.

Lemma first_category_with_id (c : Category.t) (rows : list Category.t) :
  NoDup (map Category.id rows) -> In c rows ->
  first (filter (category_with_id (Category.id c)) rows) = Some c.
Proof.
  induction rows as [|r rows IH]; simpl; intros Hn Hc; [contradiction|].
  inversion Hn as [|? ? Hr Hl]; subst. unfold category_with_id at 1.
  destruct (Category.id r =? Category.id c) eqn:E.
  - apply Z.eqb_eq in E. destruct Hc as [-> | Hc]; [reflexivity|].
    exfalso. apply Hr. rewrite E. now apply in_map.
  - apply Z.eqb_neq in E. destruct Hc as [-> | Hc]; [congruence | auto].
Qed.

Lemma first_item_with_id (i : Item.t) (rows : list Item.t) :
  NoDup (map Item.id rows) -> In i rows ->
  first (filter (item_with_id (Item.id i)) rows) = Some i.
Proof.
  induction rows as [|r rows IH]; simpl; intros Hn Hc; [contradiction|].
  inversion Hn as [|? ? Hr Hl]; subst. unfold item_with_id at 1.
  destruct (Item.id r =? Item.id i) eqn:E.
  - apply Z.eqb_eq in E. destruct Hc as [-> | Hc]; [reflexivity|].
    exfalso. apply Hr. rewrite E. now apply in_map.
  - apply Z.eqb_neq in E. destruct Hc as [-> | Hc]; [congruence | auto].
Qed.

Lemma opt_eqb_string (x y : option string) :
  opt_eqb String.eqb x y = true <-> x = y.
Proof.
  destruct x as [a|], y as [b|]; simpl; try (split; congruence).
  rewrite String.eqb_eq. split; congruence.
Qed.

Lemma length_between_nonempty (lo hi : Z) (s : string) :
  0 < lo -> length_between lo hi s = true -> String.eqb s EmptyString = false.
Proof.
  unfold length_between, str_len. intros Hlo H.
  apply andb_true_iff in H. destruct H as [H _]. apply Z.leb_le in H.
  destruct s; [simpl in H; lia | reflexivity].
Qed.

(** The category as [update_category] leaves it when the request names it
    by its own name: only the description can differ. *)
Definition with_description (f : optional_field string) (c : Category.t) : Category.t :=
  match f with
  | Unset => c
  | Provided d => Category.set_description d c
  end.

(** C2.  In every reachable database no two categories have the same
    name.  [update_category] answers a valid patch whose name is the name of
    another category with the 400 "already exists" error and leaves the
    database as it was; a valid patch whose name is the category's own name
    is accepted, the name stays and the description is set as the patch
    says. *)
Theorem category_names_unique :
  (forall db, reachable db ->
     NoDup (category_names db) /\
     forall c1 c2, In c1 (categories db) -> In c2 (categories db) ->
                   Category.name c1 = Category.name c2 -> c1 = c2) /\
  (forall db category_id category_update n other,
     CategoryUpdate.validate category_update = true ->
     category_exists category_id db = true ->
     field_value (CategoryUpdate.name category_update) = Some n ->
     In other (categories db) ->
     Category.name other = Some n ->
     Category.id other <> category_id ->
     update_category category_id category_update db =
       (raise (HTTPException HTTP_400_BAD_REQUEST (category_name_exists n)), db)) /\
  (forall db category_update n c,
     reachable db ->
     CategoryUpdate.validate category_update = true ->
     In c (categories db) ->
     Category.name c = Some n ->
     CategoryUpdate.name category_update = Provided (Some n) ->
     let row := with_description (CategoryUpdate.description category_update) c in
     update_category (Category.id c) category_update db =
       (ok row,
        {| categories := replace_category row (categories db);
           items := items db;
           next_category_id := next_category_id db;
           next_item_id := next_item_id db |}) /\
     Category.name row = Some n).
Proof.
  split; [|split].
  - intros db Hr. apply reachable_consistent in Hr.
    pose proof (names_unique db Hr) as Hn. split; [exact Hn|].
    intros c1 c2 H1 H2 E. exact (NoDup_map_injective _ _ _ _ Hn H1 H2 E).
  - intros db category_id u n other Hv Hex Hname Hin Hon Hid.
    unfold update_category.
    destruct (first_filter_exists (category_with_id category_id) (categories db))
      as [target Ht]; [exact Hex|].
    rewrite Ht, Hname. cbv iota.
    assert (Hs : truthy_str (Some n) = true).
    { unfold CategoryUpdate.validate in Hv. rewrite Hname in Hv. simpl in Hv.
      apply andb_true_iff in Hv. destruct Hv as [Hv _].
      simpl. now rewrite (length_between_nonempty 3 80 n). }
    destruct (first_filter_exists
                (fun c => column_eq String.eqb (Category.name c) n &&
                          negb (Category.id c =? category_id)) (categories db))
      as [e He].
    { apply existsb_exists. exists other. split; [assumption|].
      apply andb_true_iff. split; [now apply column_eq_string|].
      now apply negb_true_iff, Z.eqb_neq. }
    now rewrite Hs, He.
  - intros db u n c Hr Hv Hin Hn Hu row.
    apply reachable_consistent in Hr.
    pose proof (increasing_NoDup _ (categories_by_id db Hr)) as Hids.
    pose proof (names_unique db Hr) as Hnames.
    assert (Hown : forall c', In c' (categories db) -> Category.name c' = Some n ->
                              Category.id c' = Category.id c).
    { intros c' Hc' E. f_equal.
      apply (NoDup_map_injective _ _ _ _ Hnames Hc' Hin). congruence. }
    assert (Hrow : Category.name row = Some n).
    { subst row. destruct (CategoryUpdate.description u); simpl; assumption. }
    split; [|exact Hrow].
    unfold update_category. rewrite (first_category_with_id c _ Hids Hin).
    rewrite Hu. simpl field_value.
    assert (He : first (filter (fun c0 => column_eq String.eqb (Category.name c0) n &&
                                          negb (Category.id c0 =? Category.id c))
                               (categories db)) = None).
    { apply first_filter_none. apply not_true_iff_false. intros E.
      apply existsb_exists in E. destruct E as [c' [Hc' E]].
      apply andb_true_iff in E. destruct E as [E1 E2].
      apply column_eq_string in E1. apply negb_true_iff, Z.eqb_neq in E2. auto. }
    cbv iota. rewrite He. simpl truthy_obj. rewrite andb_false_r.
    assert (Hfold : fold_left CategoryUpdate.setattr
                      (CategoryUpdate.model_dump_exclude_unset u) c = row).
    { unfold CategoryUpdate.model_dump_exclude_unset. rewrite Hu. subst row.
      destruct c as [i nm d]. simpl in Hn. subst nm.
      destruct (CategoryUpdate.description u); reflexivity. }
    rewrite Hfold. unfold commit_category.
    assert (Hidrow : Category.id c = Category.id row).
    { subst row. destruct (CategoryUpdate.description u); reflexivity. }
    destruct (existsb _ _) eqn:M.
    + assert (C : category_constraints row db = true).
      { apply category_constraints_spec. exists n. split; [exact Hrow|].
        intros c' Hc' E. rewrite <- Hidrow. auto. }
      now rewrite C.
    + assert (Hsame : row = c).
      { unfold CategoryUpdate.model_dump_exclude_unset in M. rewrite Hu in M.
        subst row. destruct (CategoryUpdate.description u) as [|d]; [reflexivity|].
        simpl in M. apply orb_false_iff in M. destruct M as [_ M].
        rewrite orb_false_r in M. apply negb_false_iff, opt_eqb_string in M.
        destruct c. simpl in *. now subst d. }
      rewrite Hsame. do 2 f_equal. destruct db as [cs its nc ni]. simpl in *. f_equal.
      symmetry. clear - Hids Hin.
      induction cs as [|r cs IH]; simpl; [reflexivity|].
      inversion Hids as [|? ? Hr Hl]; subst. unfold category_with_id at 1.
      destruct (Category.id r =? Category.id c) eqn:E.
      * apply Z.eqb_eq in E. destruct Hin as [-> | Hin].
        -- f_equal. apply replace_category_absent. assumption.
        -- exfalso. apply Hr. rewrite E. now apply in_map.
      * f_equal. apply Z.eqb_neq in E. destruct Hin as [-> | Hin]; [congruence|].
        now apply IH.
Qed.

(** ** Items must refer to a stored category *)

Lemma get_item_first (item_id : Z) (db : Database) (i : Item.t) :
  get_item item_id db = ok i <->
  first (filter (item_with_id item_id) (items db)) = Some i.
Proof.
  unfold get_item. destruct (first _); split; intros H; inversion H; reflexivity.
Qed.

Lemma get_category_first (category_id : Z) (db : Database) (c : Category.t) :
  get_category category_id db = ok c <->
  first (filter (category_with_id category_id) (categories db)) = Some c.
Proof.
  unfold get_category. destruct (first _); split; intros H; inversion H; reflexivity.
Qed.

(** C4.  [create_item] with a [category_id] that is the key of no category
    raises the 404 "category not found" error and leaves the database as it
    was.  [update_item] on a stored item with a valid patch whose
    [category_id] is the key of no category raises the same error and leaves
    the database as it was; whether or not the item is stored, the request
    ends in a 404 error with the database unchanged. *)
Theorem missing_category_rejected :
  (forall item now db,
     category_exists (ItemCreate.category_id item) db = false ->
     create_item item now db =
       (raise (HTTPException HTTP_404_NOT_FOUND
                 (category_not_found (ItemCreate.category_id item))), db)) /\
  (forall item_id item_update now db c old,
     get_item item_id db = ok old ->
     ItemUpdate.validate item_update = true ->
     field_value (ItemUpdate.category_id item_update) = Some c ->
     category_exists c db = false ->
     update_item item_id item_update now db =
       (raise (HTTPException HTTP_404_NOT_FOUND (category_not_found c)), db)) /\
  (forall item_id item_update now db c,
     ItemUpdate.validate item_update = true ->
     field_value (ItemUpdate.category_id item_update) = Some c ->
     category_exists c db = false ->
     exists d,
       update_item item_id item_update now db =
         (raise (HTTPException HTTP_404_NOT_FOUND d), db)).
Proof.
  assert (Hupd : forall item_id item_update now db c old,
     get_item item_id db = ok old ->
     ItemUpdate.validate item_update = true ->
     field_value (ItemUpdate.category_id item_update) = Some c ->
     category_exists c db = false ->
     update_item item_id item_update now db =
       (raise (HTTPException HTTP_404_NOT_FOUND (category_not_found c)), db)).
  { intros item_id u now db c old Hold Hv Hc Hex.
    apply get_item_first in Hold. unfold update_item. rewrite Hold, Hc. cbv iota.
    apply (proj2 (first_filter_none (category_with_id c) (categories db))) in Hex.
    rewrite Hex.
    assert (Hpos : truthy_int (Some c) = true).
    { unfold ItemUpdate.validate in Hv. rewrite Hc in Hv. simpl in Hv.
      repeat (apply andb_true_iff in Hv; destruct Hv as [Hv _]).
      apply Z.ltb_lt in Hv. simpl. apply negb_true_iff, Z.eqb_neq. lia. }
    now rewrite Hpos. }
  split; [|split].
  - intros item now db Hex. unfold create_item.
    apply (proj2 (first_filter_none
                    (category_with_id (ItemCreate.category_id item)) (categories db)))
      in Hex.
    now rewrite Hex.
  - exact Hupd.
  - intros item_id u now db c Hv Hc Hex.
    destruct (get_item item_id db) as [e|old] eqn:G.
    + unfold get_item in G. unfold update_item.
      destruct (first _); [discriminate|]. eexists. reflexivity.
    + eexists. eapply Hupd; eassumption.
Qed.

(** ** Partial updates *)

(** An attribute that the patch leaves out keeps its value when the
    entries of the patch are set one after the other. *)
Definition kept {A B : Type} (f : optional_field A) (before after : B) : Prop :=
  f = Unset -> after = before.

Lemma item_setattr_frame (u : ItemUpdate.t) (old : Item.t) :
  let new := fold_left ItemUpdate.setattr (ItemUpdate.model_dump_exclude_unset u) old in
  Item.id new = Item.id old /\
  Item.created_at new = Item.created_at old /\
  Item.updated_at new = Item.updated_at old /\
  kept (ItemUpdate.category_id u) (Item.category_id old) (Item.category_id new) /\
  kept (ItemUpdate.name u) (Item.name old) (Item.name new) /\
  kept (ItemUpdate.description u) (Item.description old) (Item.description new) /\
  kept (ItemUpdate.price u) (Item.price old) (Item.price new) /\
  kept (ItemUpdate.rating u) (Item.rating old) (Item.rating new) /\
  kept (ItemUpdate.is_active u) (Item.is_active old) (Item.is_active new).
Proof.
  unfold kept, ItemUpdate.model_dump_exclude_unset.
  destruct u as [f1 f2 f3 f4 f5 f6]. simpl.
  destruct f1, f2, f3, f4, f5, f6; simpl;
    repeat split; intros; try discriminate; reflexivity.
Qed.

Lemma category_setattr_frame (u : CategoryUpdate.t) (old : Category.t) :
  let new := fold_left CategoryUpdate.setattr
               (CategoryUpdate.model_dump_exclude_unset u) old in
  Category.id new = Category.id old /\
  kept (CategoryUpdate.name u) (Category.name old) (Category.name new) /\
  kept (CategoryUpdate.description u) (Category.description old)
       (Category.description new).
Proof.
  unfold kept, CategoryUpdate.model_dump_exclude_unset.
  destruct u as [f1 f2]. simpl.
  destruct f1, f2; simpl; repeat split; intros; try discriminate; reflexivity.
Qed.

Lemma first_replace_item (k : Z) (row old : Item.t) (rows : list Item.t) :
  Item.id row = k ->
  first (filter (item_with_id k) rows) = Some old ->
  first (filter (item_with_id k) (replace_item row rows)) = Some row.
Proof.
  intros <-. unfold replace_item.
  induction rows as [|r rows IH]; simpl; [discriminate|].
  unfold item_with_id in *.
  destruct (Item.id r =? Item.id row) eqn:E; simpl.
  - intros _. now rewrite Z.eqb_refl.
  - rewrite E. exact IH.
Qed.

Lemma first_replace_category (k : Z) (row old : Category.t) (rows : list Category.t) :
  Category.id row = k ->
  first (filter (category_with_id k) rows) = Some old ->
  first (filter (category_with_id k) (replace_category row rows)) = Some row.
Proof.
  intros <-. unfold replace_category.
  induction rows as [|r rows IH]; simpl; [discriminate|].
  unfold category_with_id in *.
  destruct (Category.id r =? Category.id row) eqn:E; simpl.
  - intros _. now rewrite Z.eqb_refl.
  - rewrite E. exact IH.
Qed.

Lemma filter_replace_item_other (k : Z) (row : Item.t) (rows : list Item.t) :
  Item.id row <> k ->
  filter (item_with_id k) (replace_item row rows) = filter (item_with_id k) rows.
Proof.
  intros Hk. unfold replace_item.
  induction rows as [|r rows IH]; simpl; [reflexivity|].
  rewrite IH. unfold item_with_id.
  destruct (Item.id r =? Item.id row) eqn:E; [|reflexivity].
  apply Z.eqb_eq in E. rewrite E.
  apply Z.eqb_neq in Hk. now rewrite Hk.
Qed.

Lemma filter_replace_category_other (k : Z) (row : Category.t) (rows : list Category.t) :
  Category.id row <> k ->
  filter (category_with_id k) (replace_category row rows) =
  filter (category_with_id k) rows.
Proof.
  intros Hk. unfold replace_category.
  induction rows as [|r rows IH]; simpl; [reflexivity|].
  rewrite IH. unfold category_with_id.
  destruct (Category.id r =? Category.id row) eqn:E; [|reflexivity].
  apply Z.eqb_eq in E. rewrite E.
  apply Z.eqb_neq in Hk. now rewrite Hk.
Qed.

(** What [commit_item] leaves under the key of the loaded item: the loaded
    row, or the new one with its [updated_at] set. *)
Lemma commit_item_stored (k : Z) (old new : Item.t) (m : bool) (now : datetime)
    (db : Database) :
  first (filter (item_with_id k) (items db)) = Some old ->
  Item.id new = k ->
  let db' := snd (commit_item old new m now db) in
  categories db' = categories db /\
  (forall j, j <> k -> get_item j db' = get_item j db) /\
  (get_item k db' = ok old \/
   get_item k db' = ok (Item.set_updated_at now new) /\
   fst (commit_item old new m now db) = ok (Item.set_updated_at now new)).
Proof.
  intros Hold Hk. unfold commit_item.
  destruct m.
  - destruct (item_constraints new db); simpl.
    + split; [reflexivity|]. split.
      * intros j Hj. unfold get_item. simpl.
        rewrite filter_replace_item_other by (simpl; congruence). reflexivity.
      * right. split; [|reflexivity]. apply get_item_first. simpl.
        eapply first_replace_item; [exact Hk | exact Hold].
    + split; [reflexivity|]. split; [reflexivity|].
      left. now apply get_item_first.
  - simpl. split; [reflexivity|]. split; [reflexivity|].
    left. now apply get_item_first.
Qed.

Lemma commit_category_stored (k : Z) (old new : Category.t) (m : bool) (db : Database) :
  first (filter (category_with_id k) (categories db)) = Some old ->
  Category.id new = k ->
  let db' := snd (commit_category old new m db) in
  items db' = items db /\
  (forall j, j <> k -> get_category j db' = get_category j db) /\
  (get_category k db' = ok old \/
   get_category k db' = ok new /\ fst (commit_category old new m db) = ok new).
Proof.
  intros Hold Hk. unfold commit_category.
  destruct m.
  - destruct (category_constraints new db); simpl.
    + split; [reflexivity|]. split.
      * intros j Hj. unfold get_category. simpl.
        rewrite filter_replace_category_other by congruence. reflexivity.
      * right. split; [|reflexivity]. apply get_category_first. simpl.
        eapply first_replace_category; [exact Hk | exact Hold].
    + split; [reflexivity|]. split; [reflexivity|].
      left. now apply get_category_first.
  - simpl. split; [reflexivity|]. split; [reflexivity|].
    left. now apply get_category_first.
Qed.

(** C6.  Whatever the patch, after [update_item] on a stored item the item
    read back has its key and [created_at] as before and, for every field
    that the patch leaves out, the value it had; no other item and no
    category is touched.  ([updated_at] is the one column the handler
    manages itself.)  The same holds of [update_category] on a stored
    category. *)
Theorem update_keeps_absent_fields :
  (forall item_id item_update now db old,
     get_item item_id db = ok old ->
     let db' := snd (update_item item_id item_update now db) in
     exists new,
       get_item item_id db' = ok new /\
       Item.id new = Item.id old /\
       Item.created_at new = Item.created_at old /\
       kept (ItemUpdate.category_id item_update) (Item.category_id old) (Item.category_id new) /\
       kept (ItemUpdate.name item_update) (Item.name old) (Item.name new) /\
       kept (ItemUpdate.description item_update) (Item.description old) (Item.description new) /\
       kept (ItemUpdate.price item_update) (Item.price old) (Item.price new) /\
       kept (ItemUpdate.rating item_update) (Item.rating old) (Item.rating new) /\
       kept (ItemUpdate.is_active item_update) (Item.is_active old) (Item.is_active new) /\
       (forall j, j <> item_id -> get_item j db' = get_item j db) /\
       categories db' = categories db) /\
  (forall category_id category_update db old,
     get_category category_id db = ok old ->
     let db' := snd (update_category category_id category_update db) in
     exists new,
       get_category category_id db' = ok new /\
       Category.id new = Category.id old /\
       kept (CategoryUpdate.name category_update) (Category.name old) (Category.name new) /\
       kept (CategoryUpdate.description category_update)
            (Category.description old) (Category.description new) /\
       (forall j, j <> category_id -> get_category j db' = get_category j db) /\
       items db' = items db).
Proof.
  split.
  - intros item_id u now db old Hold db'.
    pose proof Hold as Hfirst. apply get_item_first in Hfirst.
    pose proof (first_filter_some _ _ _ Hfirst) as [_ Hid].
    unfold item_with_id in Hid. apply Z.eqb_eq in Hid.
    subst db'. unfold update_item. rewrite Hfirst.
    destruct (_ && _).
    + exists old. simpl. unfold kept. repeat split; auto.
    + pose proof (item_setattr_frame u old) as F. cbv zeta in F.
      set (new := fold_left ItemUpdate.setattr
                    (ItemUpdate.model_dump_exclude_unset u) old) in *.
      destruct F as [F0 [F1 [F2 [F3 [F4 [F5 [F6 [F7 F8]]]]]]]].
      destruct (commit_item_stored item_id old new
                  (existsb (ItemUpdate.modifies old) (ItemUpdate.model_dump_exclude_unset u))
                  now db Hfirst) as [Hc [Ho Hs]]; [congruence|].
      destruct Hs as [Hs | [Hs _]].
      * exists old. unfold kept. repeat split; auto.
      * exists (Item.set_updated_at now new). repeat split; auto.
  - intros category_id u db old Hold db'.
    pose proof Hold as Hfirst. apply get_category_first in Hfirst.
    pose proof (first_filter_some _ _ _ Hfirst) as [_ Hid].
    unfold category_with_id in Hid. apply Z.eqb_eq in Hid.
    subst db'. unfold update_category. rewrite Hfirst.
    destruct (_ && _).
    + exists old. simpl. unfold kept. repeat split; auto.
    + pose proof (category_setattr_frame u old) as F. cbv zeta in F.
      set (new := fold_left CategoryUpdate.setattr
                    (CategoryUpdate.model_dump_exclude_unset u) old) in *.
      destruct F as [F0 [F1 F2]].
      destruct (commit_category_stored category_id old new
                  (existsb (CategoryUpdate.modifies old)
                           (CategoryUpdate.model_dump_exclude_unset u))
                  db Hfirst) as [Hc [Ho Hs]]; [congruence|].
      destruct Hs as [Hs | [Hs _]].
      * exists old. unfold kept. repeat split; auto.
      * exists new. repeat split; auto.
Qed.

(** ** A description set to null *)

(** The patch that supplies [description] and nothing else. *)
Definition item_description_patch (d : option string) : ItemUpdate.t :=
  {| ItemUpdate.category_id := Unset;
     ItemUpdate.name := Unset;
     ItemUpdate.description := Provided d;
     ItemUpdate.price := Unset;
     ItemUpdate.rating := Unset;
     ItemUpdate.is_active := Unset |}.

(** The patch that supplies nothing. *)
Definition item_empty_patch : ItemUpdate.t :=
  {| ItemUpdate.category_id := Unset;
     ItemUpdate.name := Unset;
     ItemUpdate.description := Unset;
     ItemUpdate.price := Unset;
     ItemUpdate.rating := Unset;
     ItemUpdate.is_active := Unset |}.

Definition category_description_patch (d : option string) : CategoryUpdate.t :=
  {| CategoryUpdate.name := Unset; CategoryUpdate.description := Provided d |}.

Definition category_empty_patch : CategoryUpdate.t :=
  {| CategoryUpdate.name := Unset; CategoryUpdate.description := Unset |}.

Lemma stored_item_constraints (db : Database) (i : Item.t) :
  consistent db -> In i (items db) -> item_constraints i db = true.
Proof.
  intros H Hi. pose proof (items_constrained db H) as F.
  rewrite Forall_forall in F. auto.
Qed.

Lemma stored_category_constraints (db : Database) (c new : Category.t) :
  consistent db -> In c (categories db) ->
  Category.name new = Category.name c -> Category.id new = Category.id c ->
  category_constraints new db = true.
Proof.
  intros H Hc Hn Hid. apply category_constraints_spec.
  pose proof (names_not_null db H) as Hnn. pose proof (names_unique db H) as Hu.
  rewrite Forall_forall in Hnn.
  destruct (Category.name c) as [n|] eqn:E.
  - exists n. split; [assumption|]. intros c' Hc' En. rewrite Hid. f_equal.
    apply (NoDup_map_injective _ _ _ _ Hu Hc' Hc). congruence.
  - exfalso. apply (Hnn None); [|reflexivity].
    rewrite <- E. unfold category_names. now apply in_map.
Qed.

(** C10.  A patch that supplies [description] as null is dumped with that
    entry, unlike the patch that leaves the field out, which is dumped
    empty.  On a stored item of a reachable database [update_item] accepts
    it and the item read back has no description and every other field
    ([updated_at] apart) as before; the patch that leaves the field out
    returns the item as it is stored.  The same holds of
    [update_category]. *)
Theorem null_description_clears :
  (ItemUpdate.model_dump_exclude_unset (item_description_patch None) =
     [ItemUpdate.description_entry None] /\
   ItemUpdate.model_dump_exclude_unset item_empty_patch = [] /\
   CategoryUpdate.model_dump_exclude_unset (category_description_patch None) =
     [CategoryUpdate.description_entry None] /\
   CategoryUpdate.model_dump_exclude_unset category_empty_patch = []) /\
  (forall item_id now db old,
     reachable db ->
     get_item item_id db = ok old ->
     (exists new,
        fst (update_item item_id (item_description_patch None) now db) = ok new /\
        get_item item_id (snd (update_item item_id (item_description_patch None) now db))
          = ok new /\
        Item.description new = None /\
        Item.id new = Item.id old /\
        Item.category_id new = Item.category_id old /\
        Item.name new = Item.name old /\
        Item.price new = Item.price old /\
        Item.rating new = Item.rating old /\
        Item.is_active new = Item.is_active old /\
        Item.created_at new = Item.created_at old) /\
     update_item item_id item_empty_patch now db = (ok old, db)) /\
  (forall category_id db old,
     reachable db ->
     get_category category_id db = ok old ->
     (exists new,
        fst (update_category category_id (category_description_patch None) db) = ok new /\
        get_category category_id
          (snd (update_category category_id (category_description_patch None) db))
          = ok new /\
        Category.description new = None /\
        Category.id new = Category.id old /\
        Category.name new = Category.name old) /\
     update_category category_id category_empty_patch db = (ok old, db)).
Proof.
  split; [repeat split|split].
  - intros item_id now db old Hr Hold. apply reachable_consistent in Hr.
    apply get_item_first in Hold.
    pose proof (first_filter_some _ _ _ Hold) as [Hin Hid].
    unfold item_with_id in Hid. apply Z.eqb_eq in Hid.
    split.
    + unfold update_item. rewrite Hold. simpl.
      destruct (Item.description old) as [d|] eqn:D; simpl.
      * unfold commit_item.
        assert (C : item_constraints (Item.set_description None old) db = true)
          by exact (stored_item_constraints db old Hr Hin).
        rewrite C. simpl. eexists. split; [reflexivity|]. split.
        -- apply get_item_first. simpl.
           eapply first_replace_item; [exact Hid | exact Hold].
        -- repeat split.
      * exists old. split; [reflexivity|]. split; [now apply get_item_first|].
        repeat split. exact D.
    + unfold update_item. now rewrite Hold.
  - intros category_id db old Hr Hold. apply reachable_consistent in Hr.
    apply get_category_first in Hold.
    pose proof (first_filter_some _ _ _ Hold) as [Hin Hid].
    unfold category_with_id in Hid. apply Z.eqb_eq in Hid.
    split.
    + unfold update_category. rewrite Hold. simpl.
      destruct (Category.description old) as [d|] eqn:D; simpl.
      * unfold commit_category.
        assert (C : category_constraints (Category.set_description None old) db = true)
          by (apply (stored_category_constraints db old); auto).
        rewrite C. simpl. eexists. split; [reflexivity|]. split.
        -- apply get_category_first. simpl.
           eapply first_replace_category; [exact Hid | exact Hold].
        -- repeat split.
      * exists old. split; [reflexivity|]. split; [now apply get_category_first|].
        repeat split. exact D.
    + unfold update_category. now rewrite Hold.
Qed.

(** ** Toggling an item *)

Lemma bool_attribute_modified (b : bool) :
  negb (opt_eqb Bool.eqb (Some b) (Some (negb b))) = true.
Proof. destruct b; reflexivity. Qed.

(** On an item whose [is_active] is a boolean, [toggle_item_active] writes
    the negated flag and the time of the call; a second call restores the
    flag and writes the time of that call.  With no item of the key the
    handler raises the 404 error. *)
Lemma toggle_item_active_boolean (item_id : Z) (now1 now2 : datetime) (db : Database)
    (old : Item.t) (b : bool) :
  reachable db ->
  get_item item_id db = ok old ->
  Item.is_active old = Some b ->
  let once := toggle_item_active item_id now1 db in
  let twice := toggle_item_active item_id now2 (snd once) in
  let flipped := Item.set_updated_at now1 (Item.set_is_active (Some (negb b)) old) in
  let restored := Item.set_updated_at now2 (Item.set_is_active (Some b) old) in
  fst once = ok flipped /\ get_item item_id (snd once) = ok flipped /\
  fst twice = ok restored /\ get_item item_id (snd twice) = ok restored.
Proof.
  intros Hr Hold Hb. apply reachable_consistent in Hr.
  apply get_item_first in Hold.
  pose proof (first_filter_some _ _ _ Hold) as [Hin Hid].
  unfold item_with_id in Hid. apply Z.eqb_eq in Hid.
  assert (C : item_constraints old db = true) by exact (stored_item_constraints db old Hr Hin).
  assert (E1 : toggle_item_active item_id now1 db =
               (ok (Item.set_updated_at now1 (Item.set_is_active (Some (negb b)) old)),
                {| categories := categories db;
                   items := replace_item
                              (Item.set_updated_at now1 (Item.set_is_active (Some (negb b)) old))
                              (items db);
                   next_category_id := next_category_id db;
                   next_item_id := next_item_id db |})).
  { unfold toggle_item_active. rewrite Hold. unfold ItemUpdate.modifies.
    rewrite Hb. simpl py_not. rewrite bool_attribute_modified.
    unfold commit_item.
    change (item_constraints (Item.set_is_active (Some (negb b)) old) db)
      with (item_constraints old db).
    now rewrite C. }
  cbv zeta. rewrite E1. simpl fst. simpl snd.
  assert (Hnew : first (filter (item_with_id item_id)
                   (replace_item
                      (Item.set_updated_at now1 (Item.set_is_active (Some (negb b)) old))
                      (items db))) =
                 Some (Item.set_updated_at now1 (Item.set_is_active (Some (negb b)) old))).
  { eapply first_replace_item; [exact Hid | exact Hold]. }
  split; [reflexivity|]. split; [now apply get_item_first|].
  unfold toggle_item_active. simpl items. rewrite Hnew.
  unfold ItemUpdate.modifies. simpl Item.is_active. simpl py_not.
  rewrite bool_attribute_modified, negb_involutive.
  unfold commit_item.
  change (item_constraints
            (Item.set_is_active (Some b)
               (Item.set_updated_at now1 (Item.set_is_active (Some (negb b)) old)))
            {| categories := categories db;
               items := replace_item
                          (Item.set_updated_at now1 (Item.set_is_active (Some (negb b)) old))
                          (items db);
               next_category_id := next_category_id db;
               next_item_id := next_item_id db |})
    with (item_constraints old db).
  rewrite C. simpl fst. simpl snd.
  split; [reflexivity|].
  apply get_item_first. simpl items.
  eapply first_replace_item; [exact Hid | exact Hnew].
Qed.

Lemma toggle_item_active_missing (item_id : Z) (now : datetime) (db : Database) :
  existsb (item_with_id item_id) (items db) = false ->
  toggle_item_active item_id now db =
    (raise (HTTPException HTTP_404_NOT_FOUND (item_not_found item_id)), db).
Proof.
  intros H. apply first_filter_none in H. unfold toggle_item_active. now rewrite H.
Qed.

(** A menu with one category and one item whose [is_active] was set to
    null by an update. *)
Definition drinks : CategoryCreate.t :=
  {| CategoryCreate.name := "Drinks"; CategoryCreate.description := None |}.

Definition cola : ItemCreate.t :=
  {| ItemCreate.name := "Cola";
     ItemCreate.description := None;
     ItemCreate.price := float_of_literal 150 2;
     ItemCreate.rating := Some float_zero;
     ItemCreate.is_active := true;
     ItemCreate.category_id := 1 |}.

Definition is_active_null_patch : ItemUpdate.t :=
  {| ItemUpdate.category_id := Unset;
     ItemUpdate.name := Unset;
     ItemUpdate.description := Unset;
     ItemUpdate.price := Unset;
     ItemUpdate.rating := Unset;
     ItemUpdate.is_active := Provided None |}.

Definition menu_with_cola : Database :=
  snd (handle (POST_items cola) 2
         (snd (handle (POST_categories drinks) 1 empty_database))).

Definition menu_is_active_null : Database :=
  snd (handle (PUT_items 1 is_active_null_patch) 3 menu_with_cola).

Lemma menu_with_cola_reachable : reachable menu_with_cola.
Proof. unfold menu_with_cola. do 2 apply reachable_step. exact reachable_empty. Qed.

(** C7.  After the valid request [PUT /items/1] with [is_active] null, the
    stored item has no [is_active]; [toggle_item_active] then stores
    [True], and a second call stores [False], which is not the value the
    item had before the two calls. *)
Theorem toggle_twice_null_is_active :
  reachable menu_is_active_null /\
  ItemUpdate.validate is_active_null_patch = true /\
  (exists old, get_item 1 menu_is_active_null = ok old /\ Item.is_active old = None) /\
  (exists once, fst (toggle_item_active 1 4 menu_is_active_null) = ok once /\
                Item.is_active once = Some true) /\
  (exists twice,
     get_item 1 (snd (toggle_item_active 1 5
                        (snd (toggle_item_active 1 4 menu_is_active_null)))) = ok twice /\
     Item.is_active twice = Some false).
Proof.
  split; [|split; [|split; [|split]]].
  - unfold menu_is_active_null. apply reachable_step. exact menu_with_cola_reachable.
  - reflexivity.
  - eexists. split; vm_compute; reflexivity.
  - eexists. split; vm_compute; reflexivity.
  - eexists. split; vm_compute; reflexivity.
Qed.

(** ** Listing items *)


Lemma filter_and {A : Type} (p q : A -> bool) (l : list A) :
  filter q (filter p l) = filter (fun a => p a && q a) l.
Proof.
  induction l as [|a l IH]; simpl; [reflexivity|].
  destruct (p a); simpl; [destruct (q a)|]; now rewrite IH.
Qed.




(** A menu with two items in one category. *)
Definition tea : ItemCreate.t :=
  {| ItemCreate.name := "Tea";
     ItemCreate.description := None;
     ItemCreate.price := float_of_literal 200 2;
     ItemCreate.rating := Some float_zero;
     ItemCreate.is_active := true;
     ItemCreate.category_id := 1 |}.



(** ** Rounding to the nearest float

    What [float_of_ratio] does to a rational: a float is read as itself,
    a rational close to a float is read as that float, and the float read is
    never further than half a unit in the last place. *)

Lemma round_half_even_bounds (p q : Z) :
  0 < q ->
  2 * round_half_even p q * q - q <= 2 * p <= 2 * round_half_even p q * q + q.
Proof.
  intros Hq. unfold round_half_even.
  pose proof (Z.div_mod p q ltac:(lia)) as E.
  pose proof (Z.mod_pos_bound p q Hq) as B.
  set (d := p / q) in *. set (r := p mod q) in *.
  destruct (Z.compare_spec (2 * r) q); [destruct (Z.even d)| |]; nia.
Qed.

Lemma round_half_even_unique (p q n : Z) :
  0 < q ->
  2 * n * q - q < 2 * p < 2 * n * q + q ->
  round_half_even p q = n.
Proof.
  intros Hq Hn. unfold round_half_even.
  pose proof (Z.div_mod p q ltac:(lia)) as E.
  pose proof (Z.mod_pos_bound p q Hq) as B.
  set (d := p / q) in *. set (r := p mod q) in *.
  destruct (Z.compare_spec (2 * r) q); [destruct (Z.even d)| |]; nia.
Qed.

Lemma round_half_even_exact (n q : Z) : 0 < q -> round_half_even (n * q) q = n.
Proof. intros Hq. apply round_half_even_unique; lia. Qed.

Lemma digits2_pos_log2 (m : positive) :
  Zpos (digits2_pos m) = Z.log2 (Zpos m) + 1.
Proof.
  assert (H : forall p, digits2_pos p = Pos.size p)
    by (induction p; simpl; congruence).
  rewrite H. destruct m; simpl; lia.
Qed.

Lemma unit_exponent_eq : unit_exponent = -1074.
Proof. reflexivity. Qed.

Lemma bounded_binary64 (m : positive) (e : Z) :
  bounded prec emax m e = true ->
  0 <= e - unit_exponent /\ e <= 971 /\ Z.log2 (Zpos m) <= 52 /\
  (e - unit_exponent = 0 \/ Z.log2 (Zpos m) = 52).
Proof.
  unfold bounded, canonical_mantissa, fexp. rewrite digits2_pos_log2.
  fold unit_exponent. rewrite unit_exponent_eq. unfold prec, emax.
  intros H. apply andb_true_iff in H. destruct H as [H1 H2].
  apply Z.eqb_eq in H1. apply Z.leb_le in H2. lia.
Qed.

Lemma log2_below (n a : Z) : 0 < n -> Z.log2 n <= a -> n < 2 ^ (a + 1).
Proof.
  intros Hn H. destruct (Z.log2_spec n Hn) as [_ Hlt].
  eapply Z.lt_le_trans; [exact Hlt|].
  apply Z.pow_le_mono_r; lia.
Qed.

Lemma log2_above (n a : Z) : 0 < n -> a <= Z.log2 n -> 2 ^ a <= n.
Proof.
  intros Hn H. destruct (Z.log2_spec n Hn) as [Hle _].
  eapply Z.le_trans; [|exact Hle].
  apply Z.pow_le_mono_r; lia.
Qed.

(** A rational that is a float is read as that float. *)
Lemma float_of_ratio_exact (m : positive) (e p q : Z) :
  bounded prec emax m e = true ->
  0 < q ->
  p * 2 ^ (- unit_exponent) = Zpos m * 2 ^ (e - unit_exponent) * q ->
  float_of_ratio false p q = S754_finite false m e.
Proof.
  intros Hb Hq Hp. apply bounded_binary64 in Hb.
  destruct Hb as [Hg [He [Hlog Hcanon]]].
  set (g := e - unit_exponent) in *.
  assert (Hpow : 0 < 2 ^ g) by (apply Z.pow_pos_nonneg; lia).
  assert (Hunit : 0 < 2 ^ (- unit_exponent)) by (rewrite unit_exponent_eq; apply Z.pow_pos_nonneg; lia).
  assert (Hppos : 0 < p) by nia.
  unfold float_of_ratio.
  assert (E0 : (p <=? 0) = false) by (apply Z.leb_gt; lia).
  rewrite E0, Hp.
  rewrite Z.div_mul by lia.
  rewrite Z.log2_mul_pow2 by lia.
  assert (Eg : Z.max (g + Z.log2 (Z.pos m) - (prec - 1)) 0 = g) by (unfold prec; lia).
  rewrite Eg.
  replace (Z.pos m * 2 ^ g * q) with (Z.pos m * (q * 2 ^ g)) by ring.
  rewrite round_half_even_exact by nia.
  assert (Hm : Z.pos m < 2 ^ prec).
  { unfold prec. apply (log2_below (Z.pos m) 52); lia. }
  assert (E1 : (Z.pos m =? 2 ^ prec) = false) by (apply Z.eqb_neq; lia).
  rewrite E1.
  assert (E2 : (g + unit_exponent <=? emax - prec) = true).
  { apply Z.leb_le. unfold g, emax, prec. lia. }
  rewrite E2. f_equal. unfold g. lia.
Qed.

Lemma binade_bounds (m Q units : Z) :
  2 ^ 52 < m < 2 ^ 53 -> 0 < Q ->
  2 * m * Q - Q < 2 * units < 2 * m * Q + Q ->
  2 ^ 52 * Q <= units < 2 ^ 53 * Q.
Proof.
  intros Hm HQ H.
  assert (Hlo : (2 ^ 52 + 1) * Q <= m * Q) by (apply Z.mul_le_mono_nonneg_r; lia).
  assert (Hhi : m * Q <= (2 ^ 53 - 1) * Q) by (apply Z.mul_le_mono_nonneg_r; lia).
  lia.
Qed.

(** A rational within half a unit in the last place of a float whose
    mantissa is not the least of its binade is read as that float. *)
Lemma float_of_ratio_near (m : positive) (g p q : Z) :
  2 ^ 52 < Zpos m < 2 ^ 53 ->
  0 <= g -> g + unit_exponent <= 971 ->
  0 < q -> 0 < p ->
  2 * Zpos m * (q * 2 ^ g) - q * 2 ^ g < 2 * (p * 2 ^ (- unit_exponent))
    < 2 * Zpos m * (q * 2 ^ g) + q * 2 ^ g ->
  float_of_ratio false p q = S754_finite false m (g + unit_exponent).
Proof.
  intros Hm Hg He Hq Hp Hnear.
  assert (Hpow : 0 < 2 ^ g) by (apply Z.pow_pos_nonneg; lia).
  assert (HQ : 0 < q * 2 ^ g) by nia.
  pose proof (binade_bounds _ _ _ Hm HQ Hnear) as Hb.
  unfold float_of_ratio.
  assert (E0 : (p <=? 0) = false) by (apply Z.leb_gt; lia).
  rewrite E0.
  assert (Hlog : Z.log2 (p * 2 ^ (- unit_exponent) / q) = 52 + g).
  { apply Z.log2_unique; [lia|]. rewrite Z.pow_succ_r, Z.pow_add_r by lia. split.
    - apply Z.div_le_lower_bound; [lia|].
      replace (q * (2 ^ 52 * 2 ^ g)) with (2 ^ 52 * (q * 2 ^ g)) by ring. apply Hb.
    - apply Z.div_lt_upper_bound; [lia|].
      replace (q * (2 * (2 ^ 52 * 2 ^ g))) with (2 ^ 53 * (q * 2 ^ g)) by ring.
      apply Hb. }
  rewrite Hlog.
  assert (Eg : Z.max (52 + g - (prec - 1)) 0 = g) by (unfold prec; lia).
  rewrite Eg.
  rewrite (round_half_even_unique _ (q * 2 ^ g) (Z.pos m)) by assumption.
  assert (E1 : (Z.pos m =? 2 ^ prec) = false) by (apply Z.eqb_neq; unfold prec; lia).
  rewrite E1.
  assert (E2 : (g + unit_exponent <=? emax - prec) = true).
  { apply Z.leb_le. unfold emax, prec. lia. }
  now rewrite E2.
Qed.

(** The rational read as a finite float is within half a unit in the last
    place of it. *)
Lemma float_of_ratio_sound (m : positive) (e p q : Z) :
  0 < q ->
  float_of_ratio false p q = S754_finite false m e ->
  let g := e - unit_exponent in
  0 <= g /\ 0 < p /\
  2 * Zpos m * (q * 2 ^ g) - q * 2 ^ g <= 2 * (p * 2 ^ (- unit_exponent))
    <= 2 * Zpos m * (q * 2 ^ g) + q * 2 ^ g.
Proof.
  intros Hq. unfold float_of_ratio.
  destruct (p <=? 0) eqn:E0; [discriminate|]. apply Z.leb_gt in E0.
  set (units := p * 2 ^ (- unit_exponent)).
  set (G := Z.max (Z.log2 (units / q) - (prec - 1)) 0).
  assert (HG : 0 <= G) by (unfold G; lia).
  assert (Hpow : 0 < 2 ^ G) by (apply Z.pow_pos_nonneg; lia).
  pose proof (round_half_even_bounds units (q * 2 ^ G) ltac:(nia)) as HR.
  set (M := round_half_even units (q * 2 ^ G)) in *.
  destruct (M =? 2 ^ prec) eqn:E1.
  - apply Z.eqb_eq in E1. change (2 ^ (prec - 1)) with (Z.pos (2 ^ 52)).
    destruct (G + 1 + unit_exponent <=? emax - prec); [|discriminate].
    intros [= <- <-]. cbv zeta.
    replace (G + 1 + unit_exponent - unit_exponent) with (G + 1) by lia.
    rewrite Z.pow_add_r by lia. change (2 ^ 1) with 2.
    change (Z.pos (2 ^ 52)) with (2 ^ 52). unfold prec in E1.
    split; [lia|]. split; [lia|]. nia.
  - destruct M as [|M'|M']; try discriminate.
    destruct (G + unit_exponent <=? emax - prec); [|discriminate].
    intros [= <- <-]. cbv zeta.
    replace (G + unit_exponent - unit_exponent) with G by lia.
    split; [lia|]. split; [lia|]. lia.
Qed.

(** The float read from a numeral with two fractional digits is a fixed
    point of rounding to two fractional digits. *)
Lemma two_digits_fixed_point (m : positive) (e k : Z) :
  bounded prec emax m e = true ->
  float_of_decimal false k 2 = S754_finite false m e ->
  float_of_decimal false (decimal_digits m e 2) 2 = S754_finite false m e.
Proof.
  intros Hb Hk. unfold float_of_decimal, decimal_digits in *.
  change (10 ^ Z.of_nat 2) with 100 in *.
  pose proof (bounded_binary64 m e Hb) as [Hg [He [Hlog Hcanon]]].
  pose proof (float_of_ratio_sound m e k 100 ltac:(lia) Hk) as [_ [Hkpos Hs]].
  set (g := e - unit_exponent) in *.
  assert (Eu : - unit_exponent = 1074) by reflexivity.
  rewrite Eu in *.
  assert (HT : 0 < 2 ^ g) by (apply Z.pow_pos_nonneg; lia).
  assert (HU : 0 < 2 ^ 1074) by (apply Z.pow_pos_nonneg; lia).
  assert (Hm53 : Z.pos m < 2 ^ 53) by (apply (log2_below (Z.pos m) 52); lia).
  assert (Hexact : forall n, Z.pos m * 2 ^ g * 100 = n * 2 ^ 1074 ->
            float_of_ratio false (round_half_even (Z.pos m * 2 ^ g * 100) (2 ^ 1074)) 100
            = S754_finite false m e).
  { intros n Hn. rewrite Hn, round_half_even_exact by assumption.
    apply float_of_ratio_exact; [assumption | lia |].
    rewrite Eu. fold g. lia. }
  destruct (Z_le_gt_dec 1074 g) as [Hbig | Hsmall].
  - (* the float is an integer *)
    apply (Hexact (Z.pos m * 2 ^ (g - 1074) * 100)).
    replace g with (g - 1074 + 1074) at 1 by lia.
    rewrite Z.pow_add_r by lia. ring.
  - destruct (Z_le_gt_dec g 1067) as [Hfine | Hcoarse].
    + (* the spacing of the floats is below one hundredth *)
      assert (HUT : 2 ^ 1074 = 2 ^ g * 2 ^ (1074 - g)).
      { rewrite <- Z.pow_add_r by lia. f_equal. lia. }
      assert (H7 : 2 ^ 7 <= 2 ^ (1074 - g)) by (apply Z.pow_le_mono_r; lia).
      rewrite (round_half_even_unique _ (2 ^ 1074) k); [exact Hk | assumption |].
      generalize dependent (2 ^ (1074 - g)). generalize dependent (2 ^ 1074).
      generalize dependent (2 ^ g). intros T HT U HU Hs Hexact R HUT HR.
      change (2 ^ 7) with 128 in HR. subst U.
      assert (HTR : 128 * T <= T * R) by (clear - HT HR; nia).
      clear - HTR HU Hs HT. lia.
    + (* the spacing of the floats is above one hundredth *)
      assert (HUT : 2 ^ 1074 = 2 ^ g * 2 ^ (1074 - g)).
      { rewrite <- Z.pow_add_r by lia. f_equal. lia. }
      assert (H6 : 2 ^ (1074 - g) <= 2 ^ 6) by (apply Z.pow_le_mono_r; lia).
      assert (H0 : 0 < 2 ^ (1074 - g)) by (apply Z.pow_pos_nonneg; lia).
      assert (Hlog52 : Z.log2 (Z.pos m) = 52) by lia.
      assert (Hm52 : 2 ^ 52 <= Z.pos m) by (apply log2_above; lia).
      destruct (Z.eq_dec (Z.pos m) (2 ^ 52)) as [Hpow2 | Hnot].
      * apply (Hexact (2 ^ (g - 1022) * 100)).
        rewrite Hpow2.
        replace (2 ^ 1074) with (2 ^ 52 * 2 ^ 1022) by (rewrite <- Z.pow_add_r by lia; reflexivity).
        replace (2 ^ g) with (2 ^ (g - 1022) * 2 ^ 1022)
          by (rewrite <- Z.pow_add_r by lia; f_equal; lia).
        ring.
      * pose proof (round_half_even_bounds (Z.pos m * 2 ^ g * 100) (2 ^ 1074) HU) as HR.
        set (k' := round_half_even (Z.pos m * 2 ^ g * 100) (2 ^ 1074)) in *.
        replace e with (g + unit_exponent) by (unfold g; lia).
        assert (Hm : 2 ^ 52 < Z.pos m < 2 ^ 53) by lia.
        clear Hexact Hs Hk Hlog Hlog52 Hcanon Hb.
        apply float_of_ratio_near; try assumption; try lia.
        -- clearbody k'. change (2 ^ 6) with 64 in H6.
           change (2 ^ 52) with 4503599627370496 in Hm52.
           generalize dependent (2 ^ (1074 - g)). generalize dependent (2 ^ 1074).
           generalize dependent (2 ^ g). intros T HT U HU HR R HUT H6 H0.
           subst U.
           assert (HTR : T * R <= 64 * T) by (clear - HT H6; nia).
           assert (HmT : 4503599627370496 * T <= Z.pos m * T) by (clear - HT Hm52; nia).
           destruct (Z_lt_le_dec 0 k') as [|Hneg]; [assumption|].
           assert (Hk0 : k' * (T * R) <= 0) by (clear - Hneg HU; nia).
           clear - HTR HmT HR HT H0 Hk0 HU. lia.
        -- rewrite Eu. clearbody k'. change (2 ^ 6) with 64 in H6.
           generalize dependent (2 ^ (1074 - g)). generalize dependent (2 ^ 1074).
           generalize dependent (2 ^ g). intros T HT U HU HR R HUT H6 H0.
           subst U.
           assert (HTR : T * R <= 64 * T) by (clear - HT H6; nia).
           clear - HTR HR HT H0 HU. lia.
Qed.

(** ** The price of a new item *)

(** [math.isfinite]: a zero or a finite float, neither an infinity nor
    NaN. *)
Definition is_finite (v : float) : bool :=
  match v with
  | S754_zero _ | S754_finite _ _ _ => true
  | S754_infinity _ | S754_nan => false
  end.

(** The float is representable with at most two decimal digits: it is
    finite, and it is what a decimal numeral with at most two fractional
    digits denotes, the float nearest to [k / 100] for an integer [k]. *)
Definition two_decimal_digits (v : float) : Prop :=
  is_finite v = true /\ exists k : Z, v = float_of_literal k 2.

Lemma float_of_ratio_sign (s s' : bool) (p q : Z) (m : positive) (e : Z) :
  float_of_ratio s p q = S754_finite s' m e -> s = s' /\ 0 < p.
Proof.
  unfold float_of_ratio. destruct (p <=? 0) eqn:E0; [discriminate|].
  apply Z.leb_gt in E0.
  destruct (_ =? _); [destruct (2 ^ (prec - 1)) | destruct (round_half_even _ _)];
    try discriminate;
    destruct (_ <=? _); try discriminate; intros [= -> _ _]; auto.
Qed.

Lemma SFeqb_finite (x : float) (m : positive) (e : Z) :
  SFeqb x (S754_finite false m e) = true <-> x = S754_finite false m e.
Proof.
  unfold SFeqb, SFcompare. split.
  - destruct x as [s|s| |[] m0 e0]; try discriminate; try (destruct s; discriminate).
    destruct (Z.compare_spec e0 e); try discriminate. subst e0.
    destruct (Pos.compare_cont Eq m0 m) eqn:C; try discriminate.
    apply Pos.compare_eq in C. now subst.
  - intros ->. rewrite Z.compare_refl.
    change (Pos.compare_cont Eq m m) with (Pos.compare m m).
    now rewrite Pos.compare_refl.
Qed.

Lemma price_accepted_eq (v : float) :
  price_accepted v = float_gt v float_zero && SFeqb (py_round v 2) v.
Proof.
  unfold price_accepted, validate_price, float_ne.
  destruct (SFeqb (py_round v 2) v); reflexivity.
Qed.

Lemma price_accepted_iff (v : float) :
  is_binary64 v = true -> is_finite v = true ->
  (price_accepted v = true <-> float_gt v float_zero = true /\ two_decimal_digits v).
Proof.
  intros Hv Hfin. rewrite price_accepted_eq, andb_true_iff. unfold two_decimal_digits.
  destruct v as [s|s| |s m e]; try discriminate Hfin.
  - split; intros [H _]; discriminate H.
  - destruct s; [split; intros [H _]; discriminate H|].
    unfold is_binary64 in Hv. simpl in Hv.
    split; intros [Hpos H]; (split; [exact Hpos|]).
    + split; [reflexivity|].
      apply SFeqb_finite in H. simpl in H.
      exists (decimal_digits m e 2). rewrite <- H at 1.
      destruct (float_of_ratio_sign _ _ _ _ _ _ H) as [_ Hk].
      unfold float_of_literal.
      assert (E : (decimal_digits m e 2 <? 0) = false) by (apply Z.ltb_ge; lia).
      rewrite E, Z.abs_eq by lia. reflexivity.
    + destruct H as [_ [k Hk]]. apply SFeqb_finite. simpl.
      unfold float_of_literal in Hk. symmetry in Hk.
      destruct (float_of_ratio_sign _ _ _ _ _ _ Hk) as [Hs _].
      rewrite Hs in Hk.
      now apply (two_digits_fixed_point m e (Z.abs k)).
Qed.

(** The creation payload [{"name": "Cola", "price": 1e999, "category_id": 1}]:
    the numeral of the price is beyond the largest float and reads as
    positive infinity; [rating] and [is_active] take their defaults. *)
Definition cola_1e999 : ItemCreate.t :=
  {| ItemCreate.name := "Cola";
     ItemCreate.description := None;
     ItemCreate.price := float_of_literal (10 ^ 999) 0;
     ItemCreate.rating := Some float_zero;
     ItemCreate.is_active := true;
     ItemCreate.category_id := 1 |}.

(** C5.  On finite floats the validator does what its docstring says: a
    price is accepted on creation exactly when it is greater than zero and
    representable with at most two decimal digits; 12.999 is rejected,
    12.99 and 12.9 are accepted.  A request whose price is not accepted is
    answered with the validation error before [create_item] runs and leaves
    the database as it was, and the price of every item that a creation
    request answers with was accepted.  At positive infinity the validator
    departs from the claim: [inf > 0] and [round(inf, 2) == inf], so the
    price of the payload [cola_1e999] is accepted and the payload passes
    [ItemCreate], although infinity has no decimal representation. *)
Theorem price_two_decimal_digits :
  (forall v, is_binary64 v = true -> is_finite v = true ->
     (price_accepted v = true <->
      float_gt v float_zero = true /\ two_decimal_digits v)) /\
  price_accepted (float_of_literal 12999 3) = false /\
  price_accepted (float_of_literal 1299 2) = true /\
  price_accepted (float_of_literal 129 1) = true /\
  (forall item now db,
     price_accepted (ItemCreate.price item) = false ->
     handle (POST_items item) now db = (raise RequestValidationError, db)) /\
  (forall item now db row db',
     handle (POST_items item) now db = (ok (item_response row), db') ->
     price_accepted (ItemCreate.price item) = true /\
     Item.price row = Some (ItemCreate.price item)) /\
  ItemCreate.price cola_1e999 = S754_infinity false /\
  is_binary64 (ItemCreate.price cola_1e999) = true /\
  price_accepted (ItemCreate.price cola_1e999) = true /\
  ItemCreate.validate cola_1e999 = true /\
  ~ two_decimal_digits (ItemCreate.price cola_1e999).
Proof.
  split; [exact price_accepted_iff|].
  split; [vm_compute; reflexivity|].
  split; [vm_compute; reflexivity|].
  split; [vm_compute; reflexivity|].
  split; [|split].
  - intros item now db H. simpl. unfold ItemCreate.validate. rewrite H.
    now rewrite !andb_false_r.
  - intros item now db row db'. cbn [handle].
    destruct (ItemCreate.validate item) eqn:V; [|discriminate].
    unfold ItemCreate.validate in V.
    repeat (apply andb_true_iff in V; destruct V as [V ?]).
    unfold respond, create_item.
    destruct (negb _); [discriminate|]. unfold add_item.
    destruct (item_constraints _ _); [|discriminate].
    cbn [fst snd]. unfold ok at 1. cbv iota.
    destruct (ItemResponse.validate (new_Item item (next_item_id db) now));
      [|discriminate].
    intros [= <- _]. auto.
  - assert (E : ItemCreate.price cola_1e999 = S754_infinity false)
      by (vm_compute; reflexivity).
    split; [exact E|]. rewrite E.
    split; [reflexivity|]. split; [reflexivity|].
    split; [vm_compute; reflexivity|].
    intros [F _]. discriminate F.
Qed.

(** * Worked requests

    The properties above at concrete menus, built by the requests that
    create them. *)

Definition food : CategoryCreate.t :=
  {| CategoryCreate.name := "Food"; CategoryCreate.description := Some "Meals"%string |}.

Definition menu_two_categories : Database :=
  snd (handle (POST_categories food) 2
         (snd (handle (POST_categories drinks) 1 empty_database))).

Lemma menu_two_categories_reachable : reachable menu_two_categories.
Proof. unfold menu_two_categories. do 2 apply reachable_step. exact reachable_empty. Qed.

(** ** Listing categories *)

(** C9.  [list_categories] asks for the window of [limit] rows after the
    first [skip] of the table of categories, and asks for no order.  The
    statement has an OFFSET clause and no ORDER BY, which the dialect of
    the configured engine does not render: whatever the bounds and the
    stored categories, the call raises [CompileError] and returns no
    sequence, in particular on the default page of a menu with two
    categories. *)
Theorem list_categories_raises :
  (forall skip limit db,
     list_categories skip limit db = all (offset_limit skip limit (categories db)) /\
     list_categories skip limit db = raise CompileError /\
     forall l, list_categories skip limit db <> ok l) /\
  reachable menu_two_categories /\
  map Category.name (categories menu_two_categories) =
    [Some "Drinks"; Some "Food"]%string /\
  list_categories 0 100 menu_two_categories = raise CompileError.
Proof.
  split; [|split; [|split]].
  - intros skip limit db. split; [reflexivity|]. split; [reflexivity|].
    intros l H. discriminate H.
  - exact menu_two_categories_reachable.
  - vm_compute. reflexivity.
  - reflexivity.
Qed.

(** The item of the partial-update example: price 10.00, name "X". *)
Definition item_x : ItemCreate.t :=
  {| ItemCreate.name := "X";
     ItemCreate.description := Some "old"%string;
     ItemCreate.price := float_of_literal 1000 2;
     ItemCreate.rating := Some float_zero;
     ItemCreate.is_active := true;
     ItemCreate.category_id := 1 |}.

Definition menu_with_x : Database :=
  snd (handle (POST_items item_x) 2
         (snd (handle (POST_categories drinks) 1 empty_database))).

Lemma menu_with_x_reachable : reachable menu_with_x.
Proof. unfold menu_with_x. do 2 apply reachable_step. exact reachable_empty. Qed.

Definition priced (name : string) (cents : Z) (category_id : Z) : ItemCreate.t :=
  {| ItemCreate.name := name;
     ItemCreate.description := None;
     ItemCreate.price := float_of_literal cents 2;
     ItemCreate.rating := Some float_zero;
     ItemCreate.is_active := true;
     ItemCreate.category_id := category_id |}.

(** Two categories and six items priced 1.50, 2.00, 7.50, 5.00, 10.00 and
    12.00. *)
Definition full_menu : Database :=
  fold_left (fun db r => snd (handle r 0 db))
    [POST_categories drinks; POST_categories food;
     POST_items (priced "Cola"%string 150 1); POST_items (priced "Tea"%string 200 1);
     POST_items (priced "Burger"%string 750 2); POST_items (priced "Soup"%string 500 2);
     POST_items (priced "Juice"%string 1000 1); POST_items (priced "Steak"%string 1200 2)]
    empty_database.

Lemma delete_category_spec_witness :
  (category_exists 1 menu_with_cola = true /\
   0 < dependents 1 menu_with_cola /\
   delete_category 1 menu_with_cola =
     (raise (HTTPException HTTP_400_BAD_REQUEST
               (category_has_items (dependents 1 menu_with_cola))), menu_with_cola)) /\
  (category_exists 1 (snd (delete_item 1 menu_with_cola)) = true /\
   dependents 1 (snd (delete_item 1 menu_with_cola)) = 0 /\
   delete_category 1 (snd (delete_item 1 menu_with_cola)) =
     (ok tt, without_category 1 (snd (delete_item 1 menu_with_cola)))) /\
  (category_exists 2 menu_with_cola = false /\
   delete_category 2 menu_with_cola =
     (raise (HTTPException HTTP_404_NOT_FOUND (category_not_found 2)), menu_with_cola)).
Proof.
  split; [|split].
  - assert (E : category_exists 1 menu_with_cola = true) by (vm_compute; reflexivity).
    assert (D : 0 < dependents 1 menu_with_cola) by (vm_compute; reflexivity).
    split; [exact E|]. split; [exact D|].
    exact (proj1 (proj2 (proj2 (delete_category_spec 1 menu_with_cola))) E D).
  - assert (E : category_exists 1 (snd (delete_item 1 menu_with_cola)) = true)
      by (vm_compute; reflexivity).
    assert (D : dependents 1 (snd (delete_item 1 menu_with_cola)) = 0)
      by (vm_compute; reflexivity).
    split; [exact E|]. split; [exact D|].
    exact (proj1 (proj2 (delete_category_spec 1 (snd (delete_item 1 menu_with_cola)))) E D).
  - assert (E : category_exists 2 menu_with_cola = false) by (vm_compute; reflexivity).
    split; [exact E|].
    exact (proj2 (proj2 (proj2 (delete_category_spec 2 menu_with_cola))) E).
Defined.

Definition rename_to_drinks : CategoryUpdate.t :=
  {| CategoryUpdate.name := Provided (Some "Drinks"%string);
     CategoryUpdate.description := Provided (Some "Cold"%string) |}.

Definition stored_drinks : Category.t :=
  {| Category.id := 1; Category.name := Some "Drinks"%string; Category.description := None |}.

Lemma category_names_unique_witness :
  NoDup (category_names menu_two_categories) /\
  update_category 2 rename_to_drinks menu_two_categories =
    (raise (HTTPException HTTP_400_BAD_REQUEST (category_name_exists "Drinks"%string)),
     menu_two_categories) /\
  Category.name (with_description (Provided (Some "Cold"%string)) stored_drinks) = Some "Drinks"%string.
Proof.
  destruct category_names_unique as [H1 [H2 H3]].
  split; [|split].
  - exact (proj1 (H1 menu_two_categories menu_two_categories_reachable)).
  - apply (H2 menu_two_categories 2 rename_to_drinks "Drinks"%string stored_drinks).
    + reflexivity.
    + vm_compute; reflexivity.
    + reflexivity.
    + vm_compute. left. reflexivity.
    + reflexivity.
    + discriminate.
  - apply (H3 menu_two_categories rename_to_drinks "Drinks"%string stored_drinks).
    + exact menu_two_categories_reachable.
    + reflexivity.
    + vm_compute. left. reflexivity.
    + reflexivity.
    + reflexivity.
Defined.

Lemma create_category_spec_witness :
  create_category drinks menu_with_cola =
    (raise (HTTPException HTTP_400_BAD_REQUEST (category_name_exists "Drinks"%string)),
     menu_with_cola) /\
  fst (create_category food menu_with_cola) =
    ok {| Category.id := 2; Category.name := Some "Food"%string;
          Category.description := Some "Meals"%string |} /\
  ~ In 2 (category_ids menu_with_cola).
Proof.
  split; [|split].
  - apply (proj1 (create_category_spec drinks menu_with_cola)).
    apply name_taken_first. vm_compute. reflexivity.
  - rewrite (proj1 (proj2 (create_category_spec food menu_with_cola))).
    + vm_compute. reflexivity.
    + intros H. apply name_taken_first in H. vm_compute in H. discriminate H.
  - exact (proj2 (proj2 (create_category_spec food menu_with_cola))
             menu_with_cola_reachable).
Defined.

Definition move_to_category_7 : ItemUpdate.t :=
  {| ItemUpdate.category_id := Provided (Some 7);
     ItemUpdate.name := Provided (Some "Pepsi"%string);
     ItemUpdate.description := Unset;
     ItemUpdate.price := Unset;
     ItemUpdate.rating := Unset;
     ItemUpdate.is_active := Unset |}.

Lemma missing_category_rejected_witness :
  create_item (priced "Burger"%string 750 7) 3 menu_with_cola =
    (raise (HTTPException HTTP_404_NOT_FOUND (category_not_found 7)), menu_with_cola) /\
  update_item 1 move_to_category_7 3 menu_with_cola =
    (raise (HTTPException HTTP_404_NOT_FOUND (category_not_found 7)), menu_with_cola) /\
  exists d, update_item 9 move_to_category_7 3 menu_with_cola =
    (raise (HTTPException HTTP_404_NOT_FOUND d), menu_with_cola).
Proof.
  destruct missing_category_rejected as [H1 [H2 H3]].
  split; [|split].
  - apply (H1 (priced "Burger"%string 750 7) 3 menu_with_cola). vm_compute. reflexivity.
  - destruct (get_item 1 menu_with_cola) as [e|old] eqn:G;
      [vm_compute in G; discriminate G|].
    apply (H2 1 move_to_category_7 3 menu_with_cola 7 old G); vm_compute; reflexivity.
  - apply (H3 9 move_to_category_7 3 menu_with_cola 7); vm_compute; reflexivity.
Defined.

Lemma price_two_decimal_digits_witness :
  (is_binary64 (float_of_literal 1299 2) = true /\
   is_finite (float_of_literal 1299 2) = true) /\
  (price_accepted (float_of_literal 1299 2) = true <->
   float_gt (float_of_literal 1299 2) float_zero = true /\
   two_decimal_digits (float_of_literal 1299 2)).
Proof.
  assert (V : is_binary64 (float_of_literal 1299 2) = true) by (vm_compute; reflexivity).
  assert (F : is_finite (float_of_literal 1299 2) = true) by (vm_compute; reflexivity).
  split; [split; assumption|].
  exact (proj1 price_two_decimal_digits (float_of_literal 1299 2) V F).
Defined.

Definition stored_x : Item.t :=
  {| Item.id := 1;
     Item.category_id := Some 1;
     Item.name := Some "X"%string;
     Item.description := Some "old"%string;
     Item.price := Some (float_of_literal 1000 2);
     Item.rating := Some float_zero;
     Item.is_active := Some true;
     Item.created_at := 2;
     Item.updated_at := 2 |}.

Lemma update_keeps_absent_fields_witness :
  get_item 1 menu_with_x = ok stored_x /\
  (exists new,
     get_item 1 (snd (update_item 1 (item_description_patch (Some "new"%string)) 3
                        menu_with_x)) = ok new /\
     Item.price new = Some (float_of_literal 1000 2) /\
     Item.name new = Some "X"%string) /\
  get_category 1 menu_with_x = ok stored_drinks /\
  (exists new,
     get_category 1 (snd (update_category 1
                            (category_description_patch (Some "Cold"%string))
                            menu_with_x)) = ok new /\
     Category.name new = Some "Drinks"%string).
Proof.
  assert (G : get_item 1 menu_with_x = ok stored_x) by (vm_compute; reflexivity).
  assert (C : get_category 1 menu_with_x = ok stored_drinks) by (vm_compute; reflexivity).
  split; [exact G|]. split; [|split; [exact C|]].
  - destruct (proj1 update_keeps_absent_fields 1
                (item_description_patch (Some "new"%string)) 3 menu_with_x stored_x G)
      as [new [H0 [_ [_ [_ [Hname [_ [Hprice _]]]]]]]].
    exists new. split; [exact H0|]. split.
    + exact (Hprice eq_refl).
    + exact (Hname eq_refl).
  - destruct (proj2 update_keeps_absent_fields 1
                (category_description_patch (Some "Cold"%string)) menu_with_x
                stored_drinks C)
      as [new [H0 [_ [Hname _]]]].
    exists new. split; [exact H0|]. exact (Hname eq_refl).
Defined.

(** The price filters on the menu of six items: between 5 and 10 the
    statement selects the burger, the soup and the juice, and with category
    2 as well the burger and the soup. *)
Example list_items_selects_between_5_and_10 :
  map Item.name
      (selected (list_items_statement 0 100 None None (Some (float_of_literal 500 2))
                   (Some (float_of_literal 1000 2)) None full_menu)) =
    [Some "Burger"; Some "Soup"; Some "Juice"]%string /\
  map Item.name
      (selected (list_items_statement 0 100 (Some 2) None (Some (float_of_literal 500 2))
                   (Some (float_of_literal 1000 2)) None full_menu)) =
    [Some "Burger"; Some "Soup"]%string.
Proof. split; vm_compute; reflexivity. Qed.

Lemma null_description_clears_witness :
  get_item 1 menu_with_x = ok stored_x /\
  Item.description stored_x = Some "old"%string /\
  (exists new,
     get_item 1 (snd (update_item 1 (item_description_patch None) 3 menu_with_x))
       = ok new /\
     Item.description new = None /\
     Item.name new = Item.name stored_x /\
     Item.price new = Item.price stored_x) /\
  update_item 1 item_empty_patch 3 menu_with_x = (ok stored_x, menu_with_x).
Proof.
  assert (G : get_item 1 menu_with_x = ok stored_x) by (vm_compute; reflexivity).
  split; [exact G|]. split; [reflexivity|].
  destruct (proj1 (proj2 null_description_clears) 1 3 menu_with_x stored_x
              menu_with_x_reachable G)
    as [[new [_ [H1 [H2 [_ [_ [H3 [H4 _]]]]]]]] He].
  split; [|exact He].
  exists new. repeat split; assumption.
Defined.

(** * Further properties of the handlers *)

(** Boolean conjunctions known to be true, taken apart. *)
Ltac split_true_conjunctions :=
  repeat match goal with
         | H : andb ?b1 ?b2 = true |- _ =>
             destruct (proj1 (andb_true_iff b1 b2) H); clear H
         end.

(** ** Deleting an item *)

Definition item_exists (item_id : Z) (db : Database) : bool :=
  existsb (fun i => Item.id i =? item_id) (items db).

Lemma get_item_missing (item_id : Z) (db : Database) :
  item_exists item_id db = false <->
  get_item item_id db = raise (HTTPException HTTP_404_NOT_FOUND (item_not_found item_id)).
Proof.
  unfold get_item, item_exists. split.
  - intros H. apply (proj2 (first_filter_none (item_with_id item_id) (items db))) in H.
    now rewrite H.
  - destruct (first _) eqn:E; [discriminate|]. intros _.
    now apply first_filter_none in E.
Qed.

Lemma get_category_missing (category_id : Z) (db : Database) :
  category_exists category_id db = false <->
  get_category category_id db =
    raise (HTTPException HTTP_404_NOT_FOUND (category_not_found category_id)).
Proof.
  unfold get_category, category_exists. split.
  - intros H.
    apply (proj2 (first_filter_none (category_with_id category_id) (categories db))) in H.
    now rewrite H.
  - destruct (first _) eqn:E; [discriminate|]. intros _.
    now apply first_filter_none in E.
Qed.

Lemma filter_item_removed (k : Z) (rows : list Item.t) :
  filter (item_with_id k) (filter (fun r => negb (item_with_id k r)) rows) = [].
Proof.
  rewrite filter_and. induction rows as [|r rows IH]; simpl; [reflexivity|].
  destruct (item_with_id k r); simpl; exact IH.
Qed.

Lemma filter_item_kept (j k : Z) (rows : list Item.t) :
  j <> k ->
  filter (item_with_id j) (filter (fun r => negb (item_with_id k r)) rows) =
  filter (item_with_id j) rows.
Proof.
  intros Hjk. rewrite filter_and. apply filter_ext. intros r. unfold item_with_id.
  destruct (Item.id r =? j) eqn:E; [|now rewrite andb_false_r].
  apply Z.eqb_eq in E. rewrite E.
  apply Z.eqb_neq in Hjk. now rewrite Hjk.
Qed.

(** X1.  [delete_item] on a key that no item has raises the 404 error and
    leaves the database as it was.  On the key of a stored item it
    succeeds: the item can no longer be read, every item of another key
    reads as before, and no category is touched. *)
Theorem delete_item_spec (item_id : Z) (db : Database) :
  (item_exists item_id db = false ->
   delete_item item_id db =
     (raise (HTTPException HTTP_404_NOT_FOUND (item_not_found item_id)), db)) /\
  (item_exists item_id db = true ->
   let db' := snd (delete_item item_id db) in
   fst (delete_item item_id db) = ok tt /\
   items db' = filter (fun i => negb (Item.id i =? item_id)) (items db) /\
   categories db' = categories db /\
   get_item item_id db' =
     raise (HTTPException HTTP_404_NOT_FOUND (item_not_found item_id)) /\
   forall j, j <> item_id -> get_item j db' = get_item j db).
Proof.
  unfold item_exists. split.
  - intros H. apply (proj2 (first_filter_none (item_with_id item_id) (items db))) in H.
    unfold delete_item. now rewrite H.
  - intros H. destruct (first_filter_exists (item_with_id item_id) (items db) H) as [i Hi].
    pose proof (first_filter_some _ _ _ Hi) as [_ Hid].
    unfold item_with_id in Hid. apply Z.eqb_eq in Hid.
    unfold delete_item. rewrite Hi. unfold delete_item_row.
    cbn [fst snd items categories]. rewrite Hid.
    split; [reflexivity|]. split; [reflexivity|]. split; [reflexivity|]. split.
    + unfold get_item. cbn [items]. now rewrite filter_item_removed.
    + intros j Hj. unfold get_item. cbn [items]. now rewrite filter_item_kept.
Qed.

(** ** Creating and reading back *)

Lemma item_ids_below (db : Database) (i : Item.t) :
  consistent db -> In i (items db) -> Item.id i < next_item_id db.
Proof.
  intros H Hi. pose proof (items_below_next db H) as F.
  rewrite Forall_forall in F. apply F. unfold item_ids. now apply in_map.
Qed.

Lemma category_ids_below (db : Database) (c : Category.t) :
  consistent db -> In c (categories db) -> Category.id c < next_category_id db.
Proof.
  intros H Hc. pose proof (categories_below_next db H) as F.
  rewrite Forall_forall in F. apply F. unfold category_ids. now apply in_map.
Qed.

Lemma first_appended_item (row : Item.t) (rows : list Item.t) :
  (forall i, In i rows -> Item.id i <> Item.id row) ->
  first (filter (item_with_id (Item.id row)) (rows ++ [row])) = Some row.
Proof.
  intros Hfresh. rewrite filter_app.
  assert (E : filter (item_with_id (Item.id row)) rows = []).
  { induction rows as [|r rows IH]; simpl; [reflexivity|].
    unfold item_with_id at 1.
    destruct (Item.id r =? Item.id row) eqn:D.
    - apply Z.eqb_eq in D. exfalso. apply (Hfresh r); simpl; auto.
    - apply IH. intros i Hi. apply Hfresh. simpl. auto. }
  rewrite E. simpl. unfold item_with_id. now rewrite Z.eqb_refl.
Qed.

Lemma first_appended_category (row : Category.t) (rows : list Category.t) :
  (forall c, In c rows -> Category.id c <> Category.id row) ->
  first (filter (category_with_id (Category.id row)) (rows ++ [row])) = Some row.
Proof.
  intros Hfresh. rewrite filter_app.
  assert (E : filter (category_with_id (Category.id row)) rows = []).
  { induction rows as [|r rows IH]; simpl; [reflexivity|].
    unfold category_with_id at 1.
    destruct (Category.id r =? Category.id row) eqn:D.
    - apply Z.eqb_eq in D. exfalso. apply (Hfresh r); simpl; auto.
    - apply IH. intros c Hc. apply Hfresh. simpl. auto. }
  rewrite E. simpl. unfold category_with_id. now rewrite Z.eqb_refl.
Qed.

(** X2.  [create_item] with the key of a stored category always succeeds.
    The new item carries the fields of the request, rating 0.0 when the
    request has none, the time of the call in both timestamps and the key
    drawn from the identity counter; it is appended to the table and no
    category is touched.  In a reachable database no other item has its
    key and [get_item] on that key returns it. *)
Theorem create_item_stores (item : ItemCreate.t) (now : datetime) (db : Database) :
  category_exists (ItemCreate.category_id item) db = true ->
  exists row db',
    create_item item now db = (ok row, db') /\
    Item.id row = next_item_id db /\
    Item.category_id row = Some (ItemCreate.category_id item) /\
    Item.name row = Some (ItemCreate.name item) /\
    Item.description row = ItemCreate.description item /\
    Item.price row = Some (ItemCreate.price item) /\
    Item.rating row = Some (match ItemCreate.rating item with
                            | Some r => r
                            | None => float_zero
                            end) /\
    Item.is_active row = Some (ItemCreate.is_active item) /\
    Item.created_at row = now /\
    Item.updated_at row = now /\
    items db' = items db ++ [row] /\
    categories db' = categories db /\
    (reachable db ->
     ~ In (Item.id row) (item_ids db) /\ get_item (Item.id row) db' = ok row).
Proof.
  intros Hex. unfold create_item.
  destruct (first_filter_exists (category_with_id (ItemCreate.category_id item))
              (categories db) Hex) as [c Hc].
  rewrite Hc. simpl negb. cbv iota. unfold add_item.
  assert (C : item_constraints (new_Item item (next_item_id db) now) db = true)
    by exact Hex.
  rewrite C. do 2 eexists. split; [reflexivity|].
  repeat (split; [reflexivity|]). split.
  - simpl. destruct (ItemCreate.rating item); reflexivity.
  - repeat (split; [reflexivity|]).
    intros Hr. apply reachable_consistent in Hr.
    assert (Hfresh : forall i, In i (items db) ->
              Item.id i <> Item.id (new_Item item (next_item_id db) now)).
    { intros i Hi. pose proof (item_ids_below db i Hr Hi). simpl. lia. }
    split.
    + intros Hin. unfold item_ids in Hin. apply in_map_iff in Hin.
      destruct Hin as [i [E Hi]]. exact (Hfresh i Hi E).
    + apply get_item_first. cbn [items]. now apply first_appended_item.
Qed.

(** X3.  When [create_category] succeeds in a reachable database,
    [get_category] on the key of the new category returns it, and a second
    creation request with the same name, whatever its description, is
    answered with the 400 error and changes nothing. *)
Theorem create_category_then (category : CategoryCreate.t) (db db' : Database)
    (row : Category.t) :
  reachable db ->
  create_category category db = (ok row, db') ->
  get_category (Category.id row) db' = ok row /\
  forall description,
    create_category {| CategoryCreate.name := CategoryCreate.name category;
                       CategoryCreate.description := description |} db' =
      (raise (HTTPException HTTP_400_BAD_REQUEST
                (category_name_exists (CategoryCreate.name category))), db').
Proof.
  intros Hr. apply reachable_consistent in Hr.
  unfold create_category, add_category.
  destruct (truthy_obj _); [discriminate|].
  destruct (category_constraints _ _); [|discriminate].
  intros [= <- <-]. split.
  - apply get_category_first. cbn [categories].
    apply first_appended_category. intros c Hc.
    pose proof (category_ids_below db c Hr Hc). simpl. lia.
  - intros description.
    assert (T : name_taken (CategoryCreate.name category)
                  {| categories := categories db ++
                                   [new_Category category (next_category_id db)];
                     items := items db;
                     next_category_id := next_category_id db + 1;
                     next_item_id := next_item_id db |}).
    { exists (new_Category category (next_category_id db)). split; [|reflexivity].
      cbn [categories]. apply in_app_iff. right. simpl. auto. }
    apply name_taken_first in T.
    cbn [CategoryCreate.name]. now rewrite T.
Qed.

(** ** Keys and references *)

(** X4.  In a reachable database no two items and no two categories share
    a key, so [get_item] and [get_category] return a row exactly when it is
    the stored row of that key. *)
Theorem stored_rows_by_key (db : Database) :
  reachable db ->
  NoDup (item_ids db) /\
  NoDup (category_ids db) /\
  (forall k i, get_item k db = ok i <-> In i (items db) /\ Item.id i = k) /\
  (forall k c, get_category k db = ok c <-> In c (categories db) /\ Category.id c = k).
Proof.
  intros Hr. apply reachable_consistent in Hr.
  pose proof (increasing_NoDup _ (items_by_id db Hr)) as Hi.
  pose proof (increasing_NoDup _ (categories_by_id db Hr)) as Hc.
  split; [exact Hi|]. split; [exact Hc|]. split.
  - intros k i. rewrite get_item_first. split.
    + intros H. apply first_filter_some in H. destruct H as [Hin Hk].
      split; [exact Hin|]. now apply Z.eqb_eq in Hk.
    + intros [Hin <-]. now apply first_item_with_id.
  - intros k c. rewrite get_category_first. split.
    + intros H. apply first_filter_some in H. destruct H as [Hin Hk].
      split; [exact Hin|]. now apply Z.eqb_eq in Hk.
    + intros [Hin <-]. now apply first_category_with_id.
Qed.

(** X5.  In a reachable database every item refers to a stored category,
    and its [category_id], [name] and [price] are not null. *)
Theorem items_refer_to_categories (db : Database) (i : Item.t) :
  reachable db ->
  In i (items db) ->
  (exists c, In c (categories db) /\ Item.category_id i = Some (Category.id c)) /\
  Item.name i <> None /\
  Item.price i <> None.
Proof.
  intros Hr Hi. apply reachable_consistent in Hr.
  pose proof (stored_item_constraints db i Hr Hi) as C.
  unfold item_constraints in C.
  destruct (Item.category_id i) as [k|]; [|discriminate].
  destruct (Item.name i); [|discriminate].
  destruct (Item.price i); [|discriminate].
  apply existsb_exists in C. destruct C as [c [Hc Hk]].
  unfold category_with_id in Hk. apply Z.eqb_eq in Hk.
  split; [|split; discriminate].
  exists c. split; [exact Hc|]. now rewrite Hk.
Qed.

(** ** Stored fields fit the schemas *)

Definition in_rating_range (r : float) : bool :=
  float_ge r float_zero && float_le r (float_of_literal 5 0).

(** The fields of a stored category as [CategoryBase] constrains them. *)
Definition category_fields_valid (c : Category.t) : bool :=
  match Category.name c with
  | Some n => length_between 3 80 n
  | None => false
  end &&
  optionally (length_between 0 400) (Category.description c).

(** The fields of a stored item as the item schemas constrain them on both
    the creation and the update path. *)
Definition item_fields_valid (i : Item.t) : bool :=
  match Item.name i with
  | Some n => length_between 1 100 n
  | None => false
  end &&
  optionally (length_between 0 500) (Item.description i) &&
  match Item.price i with
  | Some p => float_gt p float_zero
  | None => false
  end &&
  optionally in_rating_range (Item.rating i).

Lemma category_patch_valid (u : CategoryUpdate.t) (old : Category.t) :
  CategoryUpdate.validate u = true ->
  category_fields_valid old = true ->
  Category.name (fold_left CategoryUpdate.setattr
                   (CategoryUpdate.model_dump_exclude_unset u) old) <> None ->
  category_fields_valid (fold_left CategoryUpdate.setattr
                           (CategoryUpdate.model_dump_exclude_unset u) old) = true.
Proof.
  unfold CategoryUpdate.validate, CategoryUpdate.model_dump_exclude_unset,
    category_fields_valid.
  destruct u as [fn fd]. destruct old as [k on od].
  cbn [CategoryUpdate.name CategoryUpdate.description Category.name
       Category.description].
  intros Hv Hold.
  apply andb_true_iff in Hv. destruct Hv as [Hv1 Hv2].
  apply andb_true_iff in Hold. destruct Hold as [Ho1 Ho2].
  destruct fn as [|[n|]], fd as [|d]; simpl; intros Hname;
    try (exfalso; apply Hname; reflexivity);
    simpl in *; apply andb_true_iff; split; assumption.
Qed.

Lemma item_patch_valid (u : ItemUpdate.t) (old : Item.t) :
  ItemUpdate.validate u = true ->
  item_fields_valid old = true ->
  Item.name (fold_left ItemUpdate.setattr
               (ItemUpdate.model_dump_exclude_unset u) old) <> None ->
  Item.price (fold_left ItemUpdate.setattr
                (ItemUpdate.model_dump_exclude_unset u) old) <> None ->
  item_fields_valid (fold_left ItemUpdate.setattr
                       (ItemUpdate.model_dump_exclude_unset u) old) = true.
Proof.
  unfold ItemUpdate.validate, ItemUpdate.model_dump_exclude_unset, item_fields_valid.
  destruct u as [fc fn fd fp fr fa]. destruct old as [k oc on od op orat oa t1 t2].
  cbn [ItemUpdate.category_id ItemUpdate.name ItemUpdate.description ItemUpdate.price
       ItemUpdate.rating ItemUpdate.is_active].
  intros Hv Hold.
  repeat (apply andb_true_iff in Hv; destruct Hv as [Hv ?]).
  cbn [Item.name Item.description Item.price Item.rating] in Hold.
  repeat (apply andb_true_iff in Hold; destruct Hold as [Hold ?]).
  destruct fc as [|vc], fn as [|[n|]], fd as [|vd], fp as [|[p|]], fr as [|vr], fa as [|va];
    simpl; intros Hname Hprice;
    try (exfalso; apply Hname; reflexivity);
    try (exfalso; apply Hprice; reflexivity);
    simpl in *; unfold length_between, in_rating_range in *;
    split_true_conjunctions;
    repeat (apply andb_true_iff; split); assumption.
Qed.

Definition fields_valid (db : Database) : Prop :=
  Forall (fun i => item_fields_valid i = true) (items db) /\
  Forall (fun c => category_fields_valid c = true) (categories db).

Lemma replace_item_forall (P : Item.t -> Prop) (row : Item.t) (rows : list Item.t) :
  P row -> Forall P rows -> Forall P (replace_item row rows).
Proof.
  rewrite !Forall_forall. intros Hrow Hrows i Hi.
  apply in_replace_item in Hi. destruct Hi as [-> | [Hi _]]; auto.
Qed.

Lemma replace_category_forall (P : Category.t -> Prop) (row : Category.t)
    (rows : list Category.t) :
  P row -> Forall P rows -> Forall P (replace_category row rows).
Proof.
  rewrite !Forall_forall. intros Hrow Hrows c Hc.
  apply in_replace_category in Hc. destruct Hc as [-> | [Hc _]]; auto.
Qed.

Lemma kept_rows_forall {A : Type} (P : A -> Prop) (keep : A -> bool) (rows : list A) :
  Forall P rows -> Forall P (filter keep rows).
Proof.
  rewrite !Forall_forall. intros H a Ha. apply filter_In in Ha. apply H. tauto.
Qed.

Lemma new_item_fields_valid (item : ItemCreate.t) (k : Z) (now : datetime) :
  ItemCreate.validate item = true -> item_fields_valid (new_Item item k now) = true.
Proof.
  unfold ItemCreate.validate, item_fields_valid, price_accepted, rating_accepted.
  intros V.
  split_true_conjunctions.
  cbn [new_Item Item.name Item.description Item.price Item.rating].
  repeat match goal with
         | H : ?b = true |- context [?b] => rewrite H
         end.
  cbn [andb].
  destruct (ItemCreate.rating item); [assumption | reflexivity].
Qed.

Lemma item_constraints_not_null (row : Item.t) (db : Database) :
  item_constraints row db = true ->
  Item.category_id row <> None /\ Item.name row <> None /\ Item.price row <> None.
Proof.
  unfold item_constraints.
  destruct (Item.category_id row); [|discriminate].
  destruct (Item.name row); [|discriminate].
  destruct (Item.price row); [|discriminate].
  intros _. repeat split; discriminate.
Qed.

Lemma commit_item_fields_valid (old new : Item.t) (m : bool) (now : datetime)
    (db : Database) :
  (item_constraints new db = true -> item_fields_valid new = true) ->
  fields_valid db -> fields_valid (snd (commit_item old new m now db)).
Proof.
  intros Hnew [Hi Hc]. unfold commit_item.
  destruct m; [|split; assumption].
  destruct (item_constraints new db) eqn:C; [|split; assumption].
  split; [|exact Hc]. cbn [snd items].
  apply replace_item_forall; [|exact Hi]. exact (Hnew eq_refl).
Qed.

Lemma handle_fields_valid (r : request) (now : datetime) (db : Database) :
  fields_valid db -> fields_valid (snd (handle r now db)).
Proof.
  intros [Hi Hc]. destruct r; simpl.
  - destruct (CategoryCreate.validate category) eqn:V; [|split; assumption].
    rewrite snd_respond. unfold create_category.
    destruct (truthy_obj _); [split; assumption|].
    unfold add_category. destruct (category_constraints _ _); [|split; assumption].
    split; [exact Hi|]. cbn [snd categories].
    apply Forall_app. split; [exact Hc|]. repeat constructor. exact V.
  - destruct (CategoryUpdate.validate category_update) eqn:V; [|split; assumption].
    rewrite snd_respond. unfold update_category.
    destruct (first _) as [old|] eqn:E; [|split; assumption].
    destruct (_ && _); [split; assumption|].
    unfold commit_category. destruct (existsb _ _); [|split; assumption].
    destruct (category_constraints _ _) eqn:C; [|split; assumption].
    split; [exact Hi|]. cbn [snd categories].
    apply replace_category_forall; [|exact Hc].
    apply category_patch_valid; [exact V | |].
    + apply first_filter_some in E. rewrite Forall_forall in Hc. apply Hc. tauto.
    + apply category_constraints_spec in C. destruct C as [n [Hn _]].
      rewrite Hn. discriminate.
  - rewrite snd_respond. unfold delete_category.
    destruct (first _); [|split; assumption].
    destruct (truthy_list _); [split; assumption|].
    split; cbn [snd delete_category_row items categories];
      now apply kept_rows_forall.
  - destruct (ItemCreate.validate item) eqn:V; [|split; assumption].
    rewrite snd_respond. unfold create_item.
    destruct (negb _); [split; assumption|].
    unfold add_item. destruct (item_constraints _ _); [|split; assumption].
    split; [|exact Hc]. cbn [snd items].
    apply Forall_app. split; [exact Hi|]. repeat constructor.
    now apply new_item_fields_valid.
  - destruct (ItemUpdate.validate item_update) eqn:V; [|split; assumption].
    rewrite snd_respond. unfold update_item.
    destruct (first _) as [old|] eqn:E; [|split; assumption].
    destruct (_ && _); [split; assumption|].
    apply commit_item_fields_valid; [|split; assumption].
    intros C. apply item_constraints_not_null in C.
    apply item_patch_valid; [exact V | | tauto | tauto].
    apply first_filter_some in E. rewrite Forall_forall in Hi. apply Hi. tauto.
  - rewrite snd_respond. unfold delete_item.
    destruct (first _); [|split; assumption].
    split; [|exact Hc]. cbn [snd delete_item_row items]. now apply kept_rows_forall.
  - rewrite snd_respond. unfold toggle_item_active.
    destruct (first _) as [old|] eqn:E; [|split; assumption].
    apply commit_item_fields_valid; [|split; assumption].
    intros _. apply first_filter_some in E. rewrite Forall_forall in Hi.
    exact (Hi old (proj1 E)).
Qed.

Lemma reachable_fields_valid (db : Database) : reachable db -> fields_valid db.
Proof.
  induction 1 as [|db r now _ IH].
  - split; constructor.
  - now apply handle_fields_valid.
Qed.

(** X6.  Every item of a reachable database has a name of 1 to 100
    characters, a description of at most 500 characters or none, a price
    greater than zero and a rating between 0.0 and 5.0 or none: a request
    that would store anything else is refused. *)
Theorem stored_items_fit_schema (db : Database) (i : Item.t) :
  reachable db ->
  In i (items db) ->
  (exists n, Item.name i = Some n /\ 1 <= str_len n <= 100) /\
  (forall d, Item.description i = Some d -> str_len d <= 500) /\
  (exists p, Item.price i = Some p /\ float_gt p float_zero = true) /\
  (forall r, Item.rating i = Some r ->
             float_ge r float_zero = true /\ float_le r (float_of_literal 5 0) = true).
Proof.
  intros Hr Hi. destruct (reachable_fields_valid db Hr) as [F _].
  rewrite Forall_forall in F. specialize (F i Hi).
  unfold item_fields_valid in F.
  repeat (apply andb_true_iff in F; destruct F as [F ?]).
  split; [|split; [|split]].
  - destruct (Item.name i) as [n|]; [|discriminate]. exists n. split; [reflexivity|].
    unfold length_between in F. apply andb_true_iff in F. lia.
  - intros d Hd. rewrite Hd in *. simpl in *. unfold length_between in *.
    match goal with H : _ && _ = true |- _ => apply andb_true_iff in H end. lia.
  - destruct (Item.price i) as [p|]; [|discriminate]. exists p. auto.
  - intros r Hrat. rewrite Hrat in *. simpl in *. unfold in_rating_range in *.
    match goal with H : _ && _ = true |- _ => apply andb_true_iff in H end. tauto.
Qed.

(** X7.  Every category of a reachable database has a name of 3 to 80
    characters and a description of at most 400 characters or none. *)
Theorem stored_categories_fit_schema (db : Database) (c : Category.t) :
  reachable db ->
  In c (categories db) ->
  (exists n, Category.name c = Some n /\ 3 <= str_len n <= 80) /\
  (forall d, Category.description c = Some d -> str_len d <= 400).
Proof.
  intros Hr Hc. destruct (reachable_fields_valid db Hr) as [_ F].
  rewrite Forall_forall in F. specialize (F c Hc).
  unfold category_fields_valid in F.
  apply andb_true_iff in F. destruct F as [F1 F2]. split.
  - destruct (Category.name c) as [n|]; [|discriminate]. exists n. split; [reflexivity|].
    unfold length_between in F1. apply andb_true_iff in F1. lia.
  - intros d Hd. rewrite Hd in F2. simpl in F2. unfold length_between in F2.
    apply andb_true_iff in F2. lia.
Qed.

(** ** The rating validator *)

Lemma SFcompare_swap (x y : float) :
  SFcompare y x = option_map CompOpp (SFcompare x y).
Proof.
  destruct x as [sx|sx| |sx mx ex], y as [sy|sy| |sy my ey]; simpl;
    try reflexivity;
    try (destruct sx; reflexivity);
    try (destruct sy; reflexivity);
    try (destruct sx, sy; reflexivity).
  assert (A : Pos.compare_cont Eq my mx = CompOpp (Pos.compare_cont Eq mx my))
    by (rewrite Pos.compare_cont_antisym; reflexivity).
  destruct sx, sy; simpl; try reflexivity;
    rewrite (Z.compare_antisym ex ey);
    destruct (ex ?= ey); simpl; try reflexivity;
    rewrite A; destruct (Pos.compare_cont Eq mx my); reflexivity.
Qed.

Lemma float_le_not_gt (x y : float) : float_le x y = true -> float_gt x y = false.
Proof.
  unfold float_le, float_gt, SFleb, SFltb. rewrite (SFcompare_swap x y).
  destruct (SFcompare x y) as [[ | | ]|]; simpl; intros H;
    try discriminate; reflexivity.
Qed.

Lemma float_ge_not_lt (x y : float) : float_ge x y = true -> float_lt x y = false.
Proof.
  unfold float_ge, float_lt, SFleb, SFltb. rewrite (SFcompare_swap y x).
  destruct (SFcompare y x) as [[ | | ]|]; simpl; intros H;
    try discriminate; reflexivity.
Qed.

(** X8.  A rating is accepted on creation exactly when it is null or lies
    between 0.0 and 5.0, bounds included: [validate_rating] rejects nothing
    that the bounds of the field let through, and returns the rating it is
    given. *)
Theorem rating_accepted_range (v : option float) :
  (rating_accepted v = true <->
   v = None \/
   exists r, v = Some r /\ float_le float_zero r = true /\
             float_le r (float_of_literal 5 0) = true) /\
  (rating_accepted v = true -> validate_rating v = Some v).
Proof.
  unfold rating_accepted, validate_rating. destruct v as [r|]; simpl.
  - destruct (float_ge r float_zero) eqn:G; simpl.
    + destruct (float_le r (float_of_literal 5 0)) eqn:L; simpl.
      * rewrite (float_ge_not_lt _ _ G), (float_le_not_gt _ _ L). simpl. split.
        -- split; [|reflexivity]. intros _. right. exists r. auto.
        -- reflexivity.
      * split; [split|]; try discriminate.
        intros [H | [r' [[= <-] [_ H]]]]; [discriminate H|].
        change (float_le r (float_of_literal 5 0) = true) in H. congruence.
    + split; [split|]; try discriminate.
      intros [H | [r' [[= <-] [H _]]]]; [discriminate H|].
      change (float_ge r float_zero = true) in H. congruence.
  - split; [|reflexivity]. split; [auto | reflexivity].
Qed.

(** ** Supplied fields are applied *)

Lemma opt_eqb_Z (x y : option Z) : opt_eqb Z.eqb x y = true -> x = y.
Proof.
  destruct x, y; simpl; try discriminate; [|reflexivity].
  intros H. apply Z.eqb_eq in H. now subst.
Qed.

Lemma opt_eqb_bool (x y : option bool) : opt_eqb Bool.eqb x y = true -> x = y.
Proof.
  destruct x, y; simpl; try discriminate; [|reflexivity].
  intros H. apply eqb_prop in H. now subst.
Qed.

Lemma SFeqb_positive (x p : float) :
  float_gt p float_zero = true -> SFeqb x p = true -> x = p.
Proof.
  destruct p as [s|[]| |[] m e]; try discriminate; intros _.
  - destruct x as [s|[]| |s m e]; try discriminate; try (destruct s; discriminate).
    reflexivity.
  - apply SFeqb_finite.
Qed.

Lemma SFeqb_reflexive (x : float) : x <> S754_nan -> SFeqb x x = true.
Proof.
  unfold SFeqb. destruct x as [s|s| |s m e]; simpl; intros H.
  - reflexivity.
  - destruct s; reflexivity.
  - contradiction.
  - rewrite Z.compare_refl.
    change (Pos.compare_cont Eq m m) with (Pos.compare m m).
    rewrite Pos.compare_refl. destruct s; reflexivity.
Qed.

(** The value that a supplied field carries is the value of the attribute
    afterwards. *)
Definition applied {A : Type} (f : optional_field A) (after : option A) : Prop :=
  forall v, f = Provided v -> after = v.

Definition applied_float (f : optional_field float) (after : option float) : Prop :=
  forall v, f = Provided v -> opt_eqb float_eq after v = true.

Lemma item_setattr_applied (u : ItemUpdate.t) (old : Item.t) :
  let new := fold_left ItemUpdate.setattr (ItemUpdate.model_dump_exclude_unset u) old in
  applied (ItemUpdate.category_id u) (Item.category_id new) /\
  applied (ItemUpdate.name u) (Item.name new) /\
  applied (ItemUpdate.description u) (Item.description new) /\
  applied (ItemUpdate.price u) (Item.price new) /\
  applied (ItemUpdate.rating u) (Item.rating new) /\
  applied (ItemUpdate.is_active u) (Item.is_active new).
Proof.
  unfold applied, ItemUpdate.model_dump_exclude_unset.
  destruct u as [f1 f2 f3 f4 f5 f6]. simpl.
  destruct f1, f2, f3, f4, f5, f6; simpl;
    repeat split; intros w E; try discriminate E; now inversion E.
Qed.

Lemma dump_field_unmodified {A : Type} (old : Item.t) (mk : option A -> ItemUpdate.entry)
    (f : optional_field A) (v : option A) :
  existsb (ItemUpdate.modifies old) (ItemUpdate.dump_field mk f) = false ->
  f = Provided v -> ItemUpdate.modifies old (mk v) = false.
Proof.
  intros H ->. simpl in H. now rewrite orb_false_r in H.
Qed.

Lemma item_unmodified (u : ItemUpdate.t) (old : Item.t) :
  existsb (ItemUpdate.modifies old) (ItemUpdate.model_dump_exclude_unset u) = false ->
  applied (ItemUpdate.category_id u) (Item.category_id old) /\
  applied (ItemUpdate.name u) (Item.name old) /\
  applied (ItemUpdate.description u) (Item.description old) /\
  applied_float (ItemUpdate.price u) (Item.price old) /\
  applied_float (ItemUpdate.rating u) (Item.rating old) /\
  applied (ItemUpdate.is_active u) (Item.is_active old).
Proof.
  unfold ItemUpdate.model_dump_exclude_unset. rewrite !existsb_app, !orb_false_iff.
  intros [H1 [H2 [H3 [H4 [H5 H6]]]]].
  unfold applied, applied_float. repeat split; intros v E.
  - apply opt_eqb_Z. apply negb_false_iff.
    exact (dump_field_unmodified old ItemUpdate.category_id_entry _ v H1 E).
  - apply opt_eqb_string. apply negb_false_iff.
    exact (dump_field_unmodified old ItemUpdate.name_entry _ v H2 E).
  - apply opt_eqb_string. apply negb_false_iff.
    exact (dump_field_unmodified old ItemUpdate.description_entry _ v H3 E).
  - apply negb_false_iff.
    exact (dump_field_unmodified old ItemUpdate.price_entry _ v H4 E).
  - apply negb_false_iff.
    exact (dump_field_unmodified old ItemUpdate.rating_entry _ v H5 E).
  - apply opt_eqb_bool. apply negb_false_iff.
    exact (dump_field_unmodified old ItemUpdate.is_active_entry _ v H6 E).
Qed.

Lemma valid_price_patch (u : ItemUpdate.t) (v : option float) :
  ItemUpdate.validate u = true -> ItemUpdate.price u = Provided v ->
  forall x, opt_eqb float_eq x v = true -> x = v.
Proof.
  unfold ItemUpdate.validate. intros V E x H. rewrite E in V. simpl in V.
  repeat (apply andb_true_iff in V; destruct V as [V ?]).
  destruct v as [p|], x as [y|]; simpl in *; try discriminate; [|reflexivity].
  f_equal. now apply SFeqb_positive.
Qed.

Lemma valid_rating_patch (u : ItemUpdate.t) (v : option float) :
  ItemUpdate.validate u = true -> ItemUpdate.rating u = Provided v ->
  opt_eqb float_eq v v = true.
Proof.
  unfold ItemUpdate.validate. intros V E. rewrite E in V. simpl in V.
  repeat (apply andb_true_iff in V; destruct V as [V ?]).
  destruct v as [r|]; simpl in *; [|reflexivity].
  apply SFeqb_reflexive. intros ->.
  match goal with H : _ && _ = true |- _ => apply andb_true_iff in H; destruct H as [H _] end.
  discriminate.
Qed.

(** X9.  When [update_item] answers a valid patch with an item, that item
    is the one stored under the key, and every field that the patch
    supplies has the supplied value (for the rating, a value equal to it as
    floats compare).  Likewise for [update_category]. *)
Theorem update_applies_supplied_fields :
  (forall item_id item_update now db new,
     ItemUpdate.validate item_update = true ->
     fst (update_item item_id item_update now db) = ok new ->
     get_item item_id (snd (update_item item_id item_update now db)) = ok new /\
     applied (ItemUpdate.category_id item_update) (Item.category_id new) /\
     applied (ItemUpdate.name item_update) (Item.name new) /\
     applied (ItemUpdate.description item_update) (Item.description new) /\
     applied (ItemUpdate.price item_update) (Item.price new) /\
     applied_float (ItemUpdate.rating item_update) (Item.rating new) /\
     applied (ItemUpdate.is_active item_update) (Item.is_active new)) /\
  (forall category_id category_update db new,
     fst (update_category category_id category_update db) = ok new ->
     get_category category_id (snd (update_category category_id category_update db))
       = ok new /\
     applied (CategoryUpdate.name category_update) (Category.name new) /\
     applied (CategoryUpdate.description category_update) (Category.description new)).
Proof.
  split.
  - intros item_id u now db new V. unfold update_item.
    destruct (first _) as [old|] eqn:E; [|discriminate].
    pose proof (first_filter_some _ _ _ E) as [_ Hid].
    unfold item_with_id in Hid. apply Z.eqb_eq in Hid.
    destruct (_ && _); [discriminate|].
    pose proof (item_setattr_frame u old) as F. cbv zeta in F.
    pose proof (item_setattr_applied u old) as A. cbv zeta in A.
    set (upd := fold_left ItemUpdate.setattr (ItemUpdate.model_dump_exclude_unset u) old)
      in *.
    unfold commit_item.
    destruct (existsb _ _) eqn:M.
    + destruct (item_constraints upd db); [|discriminate].
      cbn [fst snd]. intros [= <-].
      destruct A as [A1 [A2 [A3 [A4 [A5 A6]]]]].
      split.
      * apply get_item_first. cbn [items].
        eapply first_replace_item; [|exact E]. cbn [Item.set_updated_at Item.id].
        destruct F as [F _]. congruence.
      * repeat split; try assumption.
        intros v Ev. cbn [Item.set_updated_at Item.rating].
        rewrite (A5 v Ev). exact (valid_rating_patch u v V Ev).
    + cbn [fst snd]. intros [= <-].
      destruct (item_unmodified u old M) as [U1 [U2 [U3 [U4 [U5 U6]]]]].
      split; [now apply get_item_first|].
      repeat split; try assumption.
      intros v Ev. exact (valid_price_patch u v V Ev _ (U4 v Ev)).
  - intros category_id u db new. unfold update_category.
    destruct (first _) as [old|] eqn:E; [|discriminate].
    pose proof (first_filter_some _ _ _ E) as [_ Hid].
    unfold category_with_id in Hid. apply Z.eqb_eq in Hid.
    destruct (_ && _); [discriminate|].
    pose proof (category_setattr_frame u old) as F. cbv zeta in F.
    set (upd := fold_left CategoryUpdate.setattr
                  (CategoryUpdate.model_dump_exclude_unset u) old) in *.
    unfold commit_category.
    destruct (existsb _ _) eqn:M.
    + destruct (category_constraints upd db); [|discriminate].
      cbn [fst snd]. intros [= <-]. split.
      * apply get_category_first. cbn [categories].
        eapply first_replace_category; [|exact E]. destruct F as [F _]. congruence.
      * subst upd. unfold applied, CategoryUpdate.model_dump_exclude_unset.
        destruct u as [[|n] [|d]]; simpl; split; intros w Ev;
          try discriminate Ev; now inversion Ev.
    + cbn [fst snd]. intros [= <-]. split; [now apply get_category_first|].
      unfold CategoryUpdate.model_dump_exclude_unset in M.
      rewrite existsb_app, orb_false_iff in M. destruct M as [M1 M2].
      unfold applied. split; intros v Ev; rewrite Ev in *; simpl in *;
        rewrite orb_false_r in *; apply opt_eqb_string; now apply negb_false_iff.
Qed.

(** ** Null in a column that is not nullable *)

Lemma item_null_modifies (u : ItemUpdate.t) (old : Item.t) :
  Item.category_id old <> None -> Item.name old <> None -> Item.price old <> None ->
  ItemUpdate.category_id u = Provided None \/
  ItemUpdate.name u = Provided None \/
  ItemUpdate.price u = Provided None ->
  existsb (ItemUpdate.modifies old) (ItemUpdate.model_dump_exclude_unset u) = true.
Proof.
  intros Hc Hn Hp H. unfold ItemUpdate.model_dump_exclude_unset.
  rewrite !existsb_app, !orb_true_iff.
  destruct H as [H | [H | H]]; rewrite H; simpl.
  - left. destruct (Item.category_id old); [reflexivity | contradiction].
  - right. left. destruct (Item.name old); [reflexivity | contradiction].
  - right. right. right. left. destruct (Item.price old); [reflexivity | contradiction].
Qed.

(** X10.  On a stored item of a reachable database, a patch that supplies
    [category_id], [name] or [price] as null (and, if it names a category,
    names a stored one) is refused by the constraints of the table when
    the session commits: [update_item] raises the integrity error and the
    database stays as it was.  Likewise a patch that supplies the name of
    a category as null. *)
Theorem null_in_required_column_refused :
  (forall item_id item_update now db old,
     reachable db ->
     get_item item_id db = ok old ->
     ItemUpdate.category_id item_update = Provided None \/
     ItemUpdate.name item_update = Provided None \/
     ItemUpdate.price item_update = Provided None ->
     (forall c, field_value (ItemUpdate.category_id item_update) = Some c ->
                category_exists c db = true) ->
     update_item item_id item_update now db = (raise IntegrityError, db)) /\
  (forall category_id category_update db old,
     reachable db ->
     get_category category_id db = ok old ->
     CategoryUpdate.name category_update = Provided None ->
     update_category category_id category_update db = (raise IntegrityError, db)).
Proof.
  split.
  - intros item_id u now db old Hr Hold Hnull Hcat.
    apply reachable_consistent in Hr. apply get_item_first in Hold.
    pose proof (first_filter_some _ _ _ Hold) as [Hin _].
    pose proof (stored_item_constraints db old Hr Hin) as C.
    apply item_constraints_not_null in C. destruct C as [C1 [C2 C3]].
    unfold update_item. rewrite Hold.
    assert (Hcheck : truthy_int (field_value (ItemUpdate.category_id u)) &&
                     negb (truthy_obj
                             match field_value (ItemUpdate.category_id u) with
                             | Some c => first (filter (category_with_id c) (categories db))
                             | None => None
                             end) = false).
    { destruct (field_value (ItemUpdate.category_id u)) as [c|] eqn:Ec; [|reflexivity].
      specialize (Hcat c eq_refl).
      destruct (first_filter_exists (category_with_id c) (categories db) Hcat) as [x Hx].
      rewrite Hx. apply andb_false_r. }
    rewrite Hcheck. unfold commit_item.
    rewrite (item_null_modifies u old C1 C2 C3 Hnull).
    pose proof (item_setattr_applied u old) as A. cbv zeta in A.
    destruct A as [A1 [A2 [_ [A4 _]]]].
    set (upd := fold_left ItemUpdate.setattr (ItemUpdate.model_dump_exclude_unset u) old)
      in *.
    assert (Hc : item_constraints upd db = false).
    { unfold item_constraints. destruct Hnull as [H | [H | H]].
      - now rewrite (A1 None H).
      - rewrite (A2 None H). destruct (Item.category_id upd); reflexivity.
      - rewrite (A4 None H).
        destruct (Item.category_id upd); [|reflexivity].
        destruct (Item.name upd); reflexivity. }
    now rewrite Hc.
  - intros category_id u db old Hr Hold Hnull.
    apply reachable_consistent in Hr. apply get_category_first in Hold.
    pose proof (first_filter_some _ _ _ Hold) as [Hin _].
    pose proof (names_not_null db Hr) as Hnn. rewrite Forall_forall in Hnn.
    assert (Hname : Category.name old <> None).
    { apply Hnn. unfold category_names. now apply in_map. }
    unfold update_category. rewrite Hold, Hnull. cbn [field_value truthy_str andb].
    unfold commit_category, CategoryUpdate.model_dump_exclude_unset. rewrite Hnull.
    destruct old as [k [n|] d]; [|contradiction].
    destruct (CategoryUpdate.description u); reflexivity.
Qed.

(** ** The price on the update path *)

Definition item_price_patch (p : float) : ItemUpdate.t :=
  {| ItemUpdate.category_id := Unset;
     ItemUpdate.name := Unset;
     ItemUpdate.description := Unset;
     ItemUpdate.price := Provided (Some p);
     ItemUpdate.rating := Unset;
     ItemUpdate.is_active := Unset |}.

(** X11.  [ItemUpdate] constrains the price to be greater than zero and
    nothing more: on a stored item of a reachable database, an update
    request that supplies any price greater than zero passes the request
    validation and that price is stored, whatever its number of decimal
    digits.  The route then answers with the stored row when the row fits
    [ItemResponse] and with [ResponseValidationError] when it does not, as
    when the price is one that [validate_price] refuses. *)
Theorem update_stores_positive_price (item_id : Z) (p : float) (now : datetime)
    (db : Database) (old : Item.t) :
  reachable db ->
  get_item item_id db = ok old ->
  float_gt p float_zero = true ->
  exists new,
    get_item item_id (snd (handle (PUT_items item_id (item_price_patch p)) now db)) = ok new /\
    Item.price new = Some p /\
    fst (handle (PUT_items item_id (item_price_patch p)) now db) =
      (if ItemResponse.validate new then ok (item_response new)
       else raise ResponseValidationError) /\
    (price_accepted p = false ->
     fst (handle (PUT_items item_id (item_price_patch p)) now db) =
       raise ResponseValidationError).
Proof.
  intros Hr Hold Hp. apply reachable_consistent in Hr. apply get_item_first in Hold.
  pose proof (first_filter_some _ _ _ Hold) as [Hin Hid].
  unfold item_with_id in Hid. apply Z.eqb_eq in Hid.
  pose proof (stored_item_constraints db old Hr Hin) as C.
  assert (V : ItemUpdate.validate (item_price_patch p) = true).
  { unfold ItemUpdate.validate. simpl. now rewrite Hp. }
  assert (U : exists new db',
            update_item item_id (item_price_patch p) now db = (ok new, db') /\
            get_item item_id db' = ok new /\ Item.price new = Some p).
  { unfold update_item. rewrite Hold.
    cbn [item_price_patch ItemUpdate.category_id field_value truthy_int andb].
    change (ItemUpdate.model_dump_exclude_unset (item_price_patch p))
      with [ItemUpdate.price_entry (Some p)].
    unfold commit_item.
    cbn [fold_left ItemUpdate.setattr existsb ItemUpdate.modifies].
    rewrite orb_false_r.
    destruct (opt_eqb float_eq (Item.price old) (Some p)) eqn:M; cbn [negb].
    - exists old, db. split; [reflexivity|].
      split; [now apply get_item_first|].
      destruct (Item.price old) as [x|]; [|discriminate M]. simpl in M.
      f_equal. now apply SFeqb_positive.
    - assert (C' : item_constraints (Item.set_price (Some p) old) db = true).
      { unfold item_constraints in *. cbn [Item.set_price Item.category_id Item.name
                                            Item.price].
        destruct (Item.category_id old); [|discriminate].
        destruct (Item.name old); [|discriminate].
        destruct (Item.price old); [exact C | discriminate]. }
      rewrite C'. do 2 eexists. split; [reflexivity|]. split; [|reflexivity].
      apply get_item_first. cbn [items].
      eapply first_replace_item; [|exact Hold]. exact Hid. }
  destruct U as [new [db' [U [G E]]]]. exists new.
  cbn [handle]. rewrite V, U, snd_respond. cbn [snd].
  split; [exact G|]. split; [exact E|].
  unfold respond, ok, raise. cbn [fst snd].
  destruct (ItemResponse.validate new) eqn:W; cbn [fst]; (split; [reflexivity|]).
  - intros F. unfold ItemResponse.validate in W. rewrite E in W. cbn [required] in W.
    rewrite F in W. now rewrite !andb_false_r in W.
  - reflexivity.
Qed.

(** ** Toggling a boolean flag *)

Lemma toggle_other_rows (item_id : Z) (now : datetime) (db : Database) :
  categories (snd (toggle_item_active item_id now db)) = categories db /\
  forall j, j <> item_id ->
    get_item j (snd (toggle_item_active item_id now db)) = get_item j db.
Proof.
  unfold toggle_item_active.
  destruct (first _) as [old|] eqn:E; [|split; reflexivity].
  pose proof (first_filter_some _ _ _ E) as [_ Hid].
  unfold item_with_id in Hid. apply Z.eqb_eq in Hid.
  destruct (commit_item_stored item_id old
              (Item.set_is_active (Some (py_not (Item.is_active old))) old)
              (ItemUpdate.modifies old
                 (ItemUpdate.is_active_entry (Some (py_not (Item.is_active old)))))
              now db E Hid) as [Hc [Ho _]].
  split; assumption.
Qed.

(** X12.  On a stored item of a reachable database whose [is_active] is a
    boolean, [toggle_item_active] stores the negated flag and the time of
    the call in [updated_at]; a second call stores the original flag and
    the time of that call.  Nothing else of the item changes, and no other
    item and no category is touched. *)
Theorem toggle_item_active_involution (item_id : Z) (now1 now2 : datetime)
    (db : Database) (old : Item.t) (b : bool) :
  reachable db ->
  get_item item_id db = ok old ->
  Item.is_active old = Some b ->
  let db1 := snd (toggle_item_active item_id now1 db) in
  let db2 := snd (toggle_item_active item_id now2 db1) in
  get_item item_id db1 =
    ok (Item.set_updated_at now1 (Item.set_is_active (Some (negb b)) old)) /\
  get_item item_id db2 =
    ok (Item.set_updated_at now2 old) /\
  categories db2 = categories db /\
  forall j, j <> item_id -> get_item j db2 = get_item j db.
Proof.
  intros Hr Hold Hb db1 db2.
  destruct (toggle_item_active_boolean item_id now1 now2 db old b Hr Hold Hb)
    as [_ [H1 [_ H2]]].
  split; [exact H1|]. split.
  - subst db2 db1. rewrite H2. f_equal.
    destruct old. simpl in Hb. now subst.
  - destruct (toggle_other_rows item_id now1 db) as [C1 O1].
    destruct (toggle_other_rows item_id now2 db1) as [C2 O2].
    split.
    + subst db2. now rewrite C2.
    + intros j Hj. subst db2. rewrite (O2 j Hj). exact (O1 j Hj).
Qed.

(** ** A category with a new item cannot be deleted *)

(** X13.  After [create_item] has stored an item, [delete_category] on the
    category of that item is answered with the 400 error, which counts the
    new item with the ones the category had, and deletes nothing. *)
Theorem delete_category_after_create_item (item : ItemCreate.t) (now : datetime)
    (db db' : Database) (row : Item.t) :
  create_item item now db = (ok row, db') ->
  delete_category (ItemCreate.category_id item) db' =
    (raise (HTTPException HTTP_400_BAD_REQUEST
              (category_has_items (dependents (ItemCreate.category_id item) db + 1))),
     db').
Proof.
  unfold create_item.
  destruct (first _) as [c|] eqn:E; [|discriminate]. simpl negb. cbv iota.
  unfold add_item. destruct (item_constraints _ _); [|discriminate].
  intros [= <- <-]. rewrite delete_category_eval.
  assert (Hex : category_exists (ItemCreate.category_id item)
                  {| categories := categories db;
                     items := items db ++ [new_Item item (next_item_id db) now];
                     next_category_id := next_category_id db;
                     next_item_id := next_item_id db + 1 |} = true).
  { unfold category_exists. cbn [categories].
    apply first_filter_some in E. apply existsb_exists. exists c. exact E. }
  assert (Hdep : dependents (ItemCreate.category_id item)
                   {| categories := categories db;
                      items := items db ++ [new_Item item (next_item_id db) now];
                      next_category_id := next_category_id db;
                      next_item_id := next_item_id db + 1 |} =
                 dependents (ItemCreate.category_id item) db + 1).
  { unfold dependents. cbn [items]. rewrite filter_app, length_app. simpl.
    rewrite Z.eqb_refl. simpl. lia. }
  rewrite Hex, Hdep. simpl negb. cbv iota.
  assert (Hpos : (0 <? dependents (ItemCreate.category_id item) db + 1) = true).
  { apply Z.ltb_lt. unfold dependents. lia. }
  now rewrite Hpos.
Qed.

(** ** Requests touch one table *)

(** X14.  A request on categories leaves the items as they are, deletion
    of a category included, and a request on items leaves the categories
    as they are. *)
Theorem requests_touch_one_table (r : request) (now : datetime) (db : Database) :
  match r with
  | POST_categories _ | PUT_categories _ _ | DELETE_categories _ =>
      items (snd (handle r now db)) = items db
  | _ => categories (snd (handle r now db)) = categories db
  end.
Proof.
  destruct r; cbn [handle].
  - destruct (CategoryCreate.validate category); [|reflexivity].
    rewrite snd_respond. unfold create_category, add_category.
    destruct (truthy_obj _); [reflexivity|].
    destruct (category_constraints _ _); reflexivity.
  - destruct (CategoryUpdate.validate category_update); [|reflexivity].
    rewrite snd_respond. unfold update_category, commit_category.
    destruct (first _); [|reflexivity].
    destruct (_ && _); [reflexivity|].
    destruct (existsb _ _); [|reflexivity].
    destruct (category_constraints _ _); reflexivity.
  - rewrite snd_respond, delete_category_eval.
    destruct (negb _); [reflexivity|].
    destruct (0 <? _); reflexivity.
  - destruct (ItemCreate.validate item); [|reflexivity].
    rewrite snd_respond. unfold create_item, add_item.
    destruct (negb _); [reflexivity|].
    destruct (item_constraints _ _); reflexivity.
  - destruct (ItemUpdate.validate item_update); [|reflexivity].
    rewrite snd_respond. unfold update_item, commit_item.
    destruct (first _); [|reflexivity].
    destruct (_ && _); [reflexivity|].
    destruct (existsb _ _); [|reflexivity].
    destruct (item_constraints _ _); reflexivity.
  - rewrite snd_respond. unfold delete_item.
    destruct (first _); reflexivity.
  - rewrite snd_respond. exact (proj1 (toggle_other_rows item_id now db)).
Qed.

(** ** Renaming a category *)

Definition category_name_patch (n : string) (d : optional_field string)
  : CategoryUpdate.t :=
  {| CategoryUpdate.name := Provided (Some n); CategoryUpdate.description := d |}.

Lemma in_replace_category_row (row : Category.t) (rows : list Category.t) :
  In (Category.id row) (map Category.id rows) -> In row (replace_category row rows).
Proof.
  unfold replace_category. intros H. apply in_map_iff in H. destruct H as [r [E Hr]].
  apply in_map_iff. exists r. split; [|exact Hr].
  unfold category_with_id. rewrite E. now rewrite Z.eqb_refl.
Qed.

(** X16.  In a reachable database, renaming a category to a name that no
    category carries succeeds; afterwards the new name is taken and the old
    one is free again. *)
Theorem rename_category_frees_name (db : Database) (c : Category.t)
    (old_name new_name : string) (d : optional_field string) :
  reachable db ->
  In c (categories db) ->
  Category.name c = Some old_name ->
  new_name <> old_name ->
  ~ name_taken new_name db ->
  let db' := snd (update_category (Category.id c) (category_name_patch new_name d) db) in
  (exists row,
     fst (update_category (Category.id c) (category_name_patch new_name d) db) = ok row /\
     Category.id row = Category.id c /\
     Category.name row = Some new_name) /\
  name_taken new_name db' /\
  ~ name_taken old_name db'.
Proof.
  intros Hr Hin Hold Hneq Hfree db'. apply reachable_consistent in Hr.
  pose proof (increasing_NoDup _ (categories_by_id db Hr)) as Hids.
  pose proof (names_unique db Hr) as Hnames.
  set (row := fold_left CategoryUpdate.setattr
                (CategoryUpdate.model_dump_exclude_unset (category_name_patch new_name d))
                c).
  assert (Hrid : Category.id row = Category.id c).
  { subst row. unfold CategoryUpdate.model_dump_exclude_unset. simpl.
    destruct d; reflexivity. }
  assert (Hrname : Category.name row = Some new_name).
  { subst row. unfold CategoryUpdate.model_dump_exclude_unset. simpl.
    destruct d; reflexivity. }
  assert (Hnone : forall c', In c' (categories db) -> Category.name c' <> Some new_name).
  { intros c' Hc' E. apply Hfree. exists c'. auto. }
  assert (E : update_category (Category.id c) (category_name_patch new_name d) db =
              (ok row,
               {| categories := replace_category row (categories db);
                  items := items db;
                  next_category_id := next_category_id db;
                  next_item_id := next_item_id db |})).
  { unfold update_category. rewrite (first_category_with_id c _ Hids Hin).
    cbn [category_name_patch CategoryUpdate.name field_value].
    assert (He : first (filter (fun c0 => column_eq String.eqb (Category.name c0) new_name &&
                                          negb (Category.id c0 =? Category.id c))
                               (categories db)) = None).
    { apply first_filter_none. apply not_true_iff_false. intros X.
      apply existsb_exists in X. destruct X as [c' [Hc' X]].
      apply andb_true_iff in X. destruct X as [X _].
      apply column_eq_string in X. exact (Hnone c' Hc' X). }
    rewrite He. cbn [truthy_obj]. rewrite andb_false_r.
    fold (category_name_patch new_name d). fold row.
    unfold commit_category.
    assert (M : existsb (CategoryUpdate.modifies c)
                  (CategoryUpdate.model_dump_exclude_unset
                     (category_name_patch new_name d)) = true).
    { unfold CategoryUpdate.model_dump_exclude_unset. simpl. rewrite Hold. simpl.
      assert (X : String.eqb old_name new_name = false)
        by (apply String.eqb_neq; congruence).
      now rewrite X. }
    rewrite M.
    assert (C : category_constraints row db = true).
    { apply category_constraints_spec. exists new_name. split; [exact Hrname|].
      intros c' Hc' X. exfalso. exact (Hnone c' Hc' X). }
    now rewrite C. }
  subst db'. rewrite E. cbn [fst snd]. split; [|split].
  - exists row. auto.
  - exists row. split; [|exact Hrname]. cbn [categories].
    apply in_replace_category_row. rewrite Hrid. now apply in_map.
  - intros [c' [Hc' X]]. cbn [categories] in Hc'.
    apply in_replace_category in Hc'. destruct Hc' as [-> | [Hc' Hid]].
    + rewrite Hrname in X. congruence.
    + apply Hid. rewrite Hrid. f_equal.
      apply (NoDup_map_injective _ _ _ _ Hnames Hc' Hin). congruence.
Qed.

(** ** Deleting the last item of a category *)

Lemma filter_swap {A : Type} (p q : A -> bool) (l : list A) :
  filter p (filter q l) = filter q (filter p l).
Proof.
  rewrite !filter_and. apply filter_ext. intros a. apply andb_comm.
Qed.

(** X17.  In a reachable database, when an item is the only one of its
    category, deleting the item and then the category succeeds, and the
    category can no longer be read. *)
Theorem delete_category_after_last_item (db : Database) (item_id category_id : Z)
    (i : Item.t) :
  reachable db ->
  get_item item_id db = ok i ->
  Item.category_id i = Some category_id ->
  dependents category_id db = 1 ->
  let db1 := snd (delete_item item_id db) in
  delete_category category_id db1 = (ok tt, without_category category_id db1) /\
  get_category category_id (without_category category_id db1) =
    raise (HTTPException HTTP_404_NOT_FOUND (category_not_found category_id)).
Proof.
  intros Hr Hget Hcat Hdep db1. apply reachable_consistent in Hr.
  apply get_item_first in Hget.
  pose proof (first_filter_some _ _ _ Hget) as [Hin Hid].
  assert (Hex : category_exists category_id db = true).
  { pose proof (stored_item_constraints db i Hr Hin) as C.
    unfold item_constraints in C. rewrite Hcat in C.
    destruct (Item.name i); [|discriminate]. destruct (Item.price i); [|discriminate].
    exact C. }
  set (dep := fun x : Item.t => match Item.category_id x with
                                | Some k => k =? category_id
                                | None => false
                                end).
  assert (Hone : filter dep (items db) = [i]).
  { unfold dependents in Hdep. fold dep in Hdep.
    assert (Hi : In i (filter dep (items db))).
    { apply filter_In. split; [exact Hin|]. unfold dep. rewrite Hcat. apply Z.eqb_refl. }
    destruct (filter dep (items db)) as [|x [|y l]]; simpl in Hdep; try lia.
    destruct Hi as [-> | []]. reflexivity. }
  assert (E1 : db1 = delete_item_row i db).
  { subst db1. unfold delete_item. now rewrite Hget. }
  assert (Hex1 : category_exists category_id db1 = true) by (rewrite E1; exact Hex).
  assert (Hdep1 : dependents category_id db1 = 0).
  { rewrite E1. unfold dependents. cbn [delete_item_row items]. fold dep.
    rewrite filter_swap, Hone. simpl.
    unfold item_with_id in *. apply Z.eqb_eq in Hid. now rewrite Z.eqb_refl. }
  split.
  - rewrite delete_category_eval, Hex1, Hdep1. reflexivity.
  - apply get_category_missing. unfold category_exists. cbn [without_category categories].
    apply not_true_iff_false. intros X. apply existsb_exists in X.
    destruct X as [c [Hc X]]. apply filter_In in Hc. destruct Hc as [_ Hc].
    now rewrite X in Hc.
Qed.

(** * Further worked requests *)

Definition stored_cola : Item.t :=
  {| Item.id := 1;
     Item.category_id := Some 1;
     Item.name := Some "Cola"%string;
     Item.description := None;
     Item.price := Some (float_of_literal 150 2);
     Item.rating := Some float_zero;
     Item.is_active := Some true;
     Item.created_at := 2;
     Item.updated_at := 2 |}.

Lemma stored_cola_read : get_item 1 menu_with_cola = ok stored_cola.
Proof. vm_compute. reflexivity. Qed.

Lemma stored_x_read : get_item 1 menu_with_x = ok stored_x.
Proof. vm_compute. reflexivity. Qed.

Lemma delete_item_spec_witness :
  (item_exists 9 menu_with_cola = false /\
   delete_item 9 menu_with_cola =
     (raise (HTTPException HTTP_404_NOT_FOUND (item_not_found 9)), menu_with_cola)) /\
  (item_exists 1 menu_with_cola = true /\
   fst (delete_item 1 menu_with_cola) = ok tt /\
   get_item 1 (snd (delete_item 1 menu_with_cola)) =
     raise (HTTPException HTTP_404_NOT_FOUND (item_not_found 1))).
Proof.
  assert (E9 : item_exists 9 menu_with_cola = false) by (vm_compute; reflexivity).
  assert (E1 : item_exists 1 menu_with_cola = true) by (vm_compute; reflexivity).
  split.
  - split; [exact E9|]. exact (proj1 (delete_item_spec 9 menu_with_cola) E9).
  - split; [exact E1|].
    destruct (proj2 (delete_item_spec 1 menu_with_cola) E1) as [H1 [_ [_ [H2 _]]]].
    split; [exact H1 | exact H2].
Defined.

Lemma create_item_stores_witness :
  category_exists (ItemCreate.category_id tea) menu_with_cola = true /\
  exists row db',
    create_item tea 3 menu_with_cola = (ok row, db') /\
    Item.id row = next_item_id menu_with_cola /\
    get_item (Item.id row) db' = ok row.
Proof.
  assert (E : category_exists (ItemCreate.category_id tea) menu_with_cola = true)
    by (vm_compute; reflexivity).
  split; [exact E|].
  destruct (create_item_stores tea 3 menu_with_cola E)
    as [row [db' [H1 [H2 [_ [_ [_ [_ [_ [_ [_ [_ [_ [_ H3]]]]]]]]]]]]]].
  exists row, db'. split; [exact H1|]. split; [exact H2|].
  exact (proj2 (H3 menu_with_cola_reachable)).
Defined.

Lemma create_category_then_witness :
  exists row db',
    create_category food menu_with_cola = (ok row, db') /\
    get_category (Category.id row) db' = ok row /\
    create_category {| CategoryCreate.name := CategoryCreate.name food;
                       CategoryCreate.description := None |} db' =
      (raise (HTTPException HTTP_400_BAD_REQUEST
                (category_name_exists (CategoryCreate.name food))), db').
Proof.
  assert (E : exists row db', create_category food menu_with_cola = (ok row, db')).
  { do 2 eexists. vm_compute. reflexivity. }
  destruct E as [row [db' E]]. exists row, db'. split; [exact E|].
  destruct (create_category_then food menu_with_cola db' row menu_with_cola_reachable E)
    as [H1 H2].
  split; [exact H1 | exact (H2 None)].
Defined.

Lemma stored_rows_by_key_witness :
  NoDup (item_ids full_menu) /\
  (get_item 1 menu_with_cola = ok stored_cola <->
   In stored_cola (items menu_with_cola) /\ Item.id stored_cola = 1).
Proof.
  assert (R : reachable full_menu).
  { unfold full_menu. cbn [fold_left]. do 8 apply reachable_step. exact reachable_empty. }
  split.
  - exact (proj1 (stored_rows_by_key full_menu R)).
  - exact (proj1 (proj2 (proj2 (stored_rows_by_key menu_with_cola menu_with_cola_reachable)))
             1 stored_cola).
Defined.

Lemma stored_cola_in_menu : In stored_cola (items menu_with_cola).
Proof. vm_compute. left. reflexivity. Qed.

Lemma items_refer_to_categories_witness :
  In stored_cola (items menu_with_cola) /\
  (exists c, In c (categories menu_with_cola) /\
             Item.category_id stored_cola = Some (Category.id c)).
Proof.
  split; [exact stored_cola_in_menu|].
  exact (proj1 (items_refer_to_categories menu_with_cola stored_cola
                  menu_with_cola_reachable stored_cola_in_menu)).
Defined.

Lemma stored_items_fit_schema_witness :
  In stored_cola (items menu_with_cola) /\
  exists p, Item.price stored_cola = Some p /\ float_gt p float_zero = true.
Proof.
  split; [exact stored_cola_in_menu|].
  exact (proj1 (proj2 (proj2 (stored_items_fit_schema menu_with_cola stored_cola
                                menu_with_cola_reachable stored_cola_in_menu)))).
Defined.

Lemma stored_drinks_in_menu : In stored_drinks (categories menu_two_categories).
Proof. vm_compute. left. reflexivity. Qed.

Lemma stored_categories_fit_schema_witness :
  In stored_drinks (categories menu_two_categories) /\
  exists n, Category.name stored_drinks = Some n /\ 3 <= str_len n <= 80.
Proof.
  split; [exact stored_drinks_in_menu|].
  exact (proj1 (stored_categories_fit_schema menu_two_categories stored_drinks
                  menu_two_categories_reachable stored_drinks_in_menu)).
Defined.

Lemma rating_accepted_range_witness :
  rating_accepted (Some (float_of_literal 45 1)) = true /\
  validate_rating (Some (float_of_literal 45 1)) = Some (Some (float_of_literal 45 1)) /\
  rating_accepted (Some (float_of_literal 51 1)) = false.
Proof.
  assert (A : rating_accepted (Some (float_of_literal 45 1)) = true).
  { apply (proj1 (rating_accepted_range (Some (float_of_literal 45 1)))).
    right. eexists. split; [reflexivity|]. split; vm_compute; reflexivity. }
  split; [exact A|]. split.
  - exact (proj2 (rating_accepted_range (Some (float_of_literal 45 1))) A).
  - vm_compute. reflexivity.
Defined.

Lemma update_applies_supplied_fields_witness :
  ItemUpdate.validate (item_description_patch (Some "new"%string)) = true /\
  exists new,
    fst (update_item 1 (item_description_patch (Some "new"%string)) 3 menu_with_x)
      = ok new /\
    get_item 1 (snd (update_item 1 (item_description_patch (Some "new"%string)) 3
                       menu_with_x)) = ok new /\
    Item.description new = Some "new"%string.
Proof.
  assert (V : ItemUpdate.validate (item_description_patch (Some "new"%string)) = true)
    by reflexivity.
  split; [exact V|].
  assert (E : exists new,
            fst (update_item 1 (item_description_patch (Some "new"%string)) 3 menu_with_x)
              = ok new).
  { eexists. vm_compute. reflexivity. }
  destruct E as [new E]. exists new. split; [exact E|].
  destruct (proj1 update_applies_supplied_fields 1
              (item_description_patch (Some "new"%string)) 3 menu_with_x new V E)
    as [H1 [_ [_ [H2 _]]]].
  split; [exact H1|]. exact (H2 (Some "new"%string) eq_refl).
Defined.

Definition item_name_null_patch : ItemUpdate.t :=
  {| ItemUpdate.category_id := Unset;
     ItemUpdate.name := Provided None;
     ItemUpdate.description := Provided (Some "kept?"%string);
     ItemUpdate.price := Unset;
     ItemUpdate.rating := Unset;
     ItemUpdate.is_active := Unset |}.

Lemma null_in_required_column_refused_witness :
  ItemUpdate.validate item_name_null_patch = true /\
  update_item 1 item_name_null_patch 3 menu_with_x = (raise IntegrityError, menu_with_x) /\
  update_category 1 {| CategoryUpdate.name := Provided None;
                       CategoryUpdate.description := Unset |} menu_with_x =
    (raise IntegrityError, menu_with_x).
Proof.
  split; [reflexivity|]. split.
  - apply (proj1 null_in_required_column_refused 1 item_name_null_patch 3 menu_with_x
             stored_x menu_with_x_reachable stored_x_read).
    + right. left. reflexivity.
    + intros c H. discriminate H.
  - assert (G : get_category 1 menu_with_x = ok stored_drinks) by (vm_compute; reflexivity).
    exact (proj2 null_in_required_column_refused 1
             {| CategoryUpdate.name := Provided None;
                CategoryUpdate.description := Unset |}
             menu_with_x stored_drinks menu_with_x_reachable G eq_refl).
Defined.

Lemma update_stores_positive_price_witness :
  float_gt (float_of_literal 12999 3) float_zero = true /\
  price_accepted (float_of_literal 12999 3) = false /\
  (exists new,
     get_item 1 (snd (handle (PUT_items 1 (item_price_patch (float_of_literal 12999 3)))
                             3 menu_with_x)) = ok new /\
     Item.price new = Some (float_of_literal 12999 3)) /\
  fst (handle (PUT_items 1 (item_price_patch (float_of_literal 12999 3))) 3 menu_with_x) =
    raise ResponseValidationError.
Proof.
  assert (P : float_gt (float_of_literal 12999 3) float_zero = true)
    by (vm_compute; reflexivity).
  assert (F : price_accepted (float_of_literal 12999 3) = false)
    by (vm_compute; reflexivity).
  split; [exact P|]. split; [exact F|].
  destruct (update_stores_positive_price 1 (float_of_literal 12999 3) 3 menu_with_x
              stored_x menu_with_x_reachable stored_x_read P) as [new [H1 [H2 [_ H3]]]].
  split; [exists new; split; assumption|]. exact (H3 F).
Defined.

Lemma toggle_item_active_involution_witness :
  Item.is_active stored_x = Some true /\
  get_item 1 (snd (toggle_item_active 1 5 (snd (toggle_item_active 1 4 menu_with_x)))) =
    ok (Item.set_updated_at 5 stored_x).
Proof.
  split; [reflexivity|].
  exact (proj1 (proj2 (toggle_item_active_involution 1 4 5 menu_with_x stored_x true
                         menu_with_x_reachable stored_x_read eq_refl))).
Defined.

Lemma delete_category_after_create_item_witness :
  exists row db',
    create_item tea 3 menu_with_cola = (ok row, db') /\
    delete_category (ItemCreate.category_id tea) db' =
      (raise (HTTPException HTTP_400_BAD_REQUEST
                (category_has_items
                   (dependents (ItemCreate.category_id tea) menu_with_cola + 1))),
       db').
Proof.
  assert (E : exists row db', create_item tea 3 menu_with_cola = (ok row, db')).
  { do 2 eexists. vm_compute. reflexivity. }
  destruct E as [row [db' E]]. exists row, db'. split; [exact E|].
  exact (delete_category_after_create_item tea 3 menu_with_cola db' row E).
Defined.

Lemma rename_category_frees_name_witness :
  ~ name_taken "Beverages" menu_two_categories /\
  name_taken "Beverages"
    (snd (update_category (Category.id stored_drinks)
            (category_name_patch "Beverages" Unset) menu_two_categories)) /\
  ~ name_taken "Drinks"
    (snd (update_category (Category.id stored_drinks)
            (category_name_patch "Beverages" Unset) menu_two_categories)).
Proof.
  assert (F : ~ name_taken "Beverages" menu_two_categories).
  { intros H. apply name_taken_first in H. vm_compute in H. discriminate H. }
  split; [exact F|].
  assert (N : "Beverages"%string <> "Drinks"%string) by discriminate.
  exact (proj2 (rename_category_frees_name menu_two_categories stored_drinks
                  "Drinks" "Beverages" Unset menu_two_categories_reachable
                  stored_drinks_in_menu eq_refl N F)).
Defined.

Lemma delete_category_after_last_item_witness :
  dependents 1 menu_with_cola = 1 /\
  delete_category 1 (snd (delete_item 1 menu_with_cola)) =
    (ok tt, without_category 1 (snd (delete_item 1 menu_with_cola))).
Proof.
  assert (D : dependents 1 menu_with_cola = 1) by (vm_compute; reflexivity).
  split; [exact D|].
  exact (proj1 (delete_category_after_last_item menu_with_cola 1 1 stored_cola
                  menu_with_cola_reachable stored_cola_read eq_refl D)).
Defined.
